(** * Project-14: data preparation and model selection over Spark tables

    A shallow embedding of [src/Project_14.py].  The script is glue code over
    PySpark: tables ([DataFrame]), column expressions ([Column]), the feature
    transformers [VectorAssembler] and [MinMaxScaler], and the regression
    estimators.  The tables and the column expressions are modelled by their
    contents; the numeric aggregates of the engine whose result the script
    only branches on or stores ([approxQuantile], [skewness], the cast of a
    cell, the fitted regressors and their metrics) are parameters of the
    development.

    Conventions.
    - A Spark double is a real number ([R]); NaN, infinities and rounding are
      not modelled.
    - A table is its schema and its rows; an error the engine raises when a
      table is computed is raised where the transformation is applied.
    - Column names are compared exactly (as [StructType.__getitem__] does).
    - A Python exception is a value [Err e] of the type [res]. *)

From Stdlib Require Import Reals Lra Lia List ZArith String Bool.
From stdpp Require Import base strings gmap.
Import ListNotations.

Local Open Scope string_scope.
Local Open Scope list_scope.

(** ** Exceptions *)

Inductive error : Type :=
| KeyError | TypeError | IndexError | NameError | UnboundLocalError
| AnalysisException | IllegalArgumentException | SparkException.

Inductive res (A : Type) : Type :=
| Ok (a : A)
| Err (e : error).
Arguments Ok {A} a.
Arguments Err {A} e.

Definition res_bind {A B : Type} (c : res A) (k : A -> res B) : res B :=
  match c with
  | Ok a => k a
  | Err e => Err e
  end.

Notation "'let*' x := c 'in' k" := (res_bind c (fun x => k))
  (at level 10, x name, c at level 100, k at level 200).

Fixpoint res_map {A B : Type} (f : A -> res B) (l : list A) : res (list B) :=
  match l with
  | [] => Ok []
  | a :: l' => let* b := f a in let* bs := res_map f l' in Ok (b :: bs)
  end.

Fixpoint res_fold {S A : Type} (f : S -> A -> res S) (l : list A) (s : S) : res S :=
  match l with
  | [] => Ok s
  | a :: l' => let* s' := f s a in res_fold f l' s'
  end.

(** Reading a local that may not have been assigned yet. *)
Definition read_local {A : Type} (x : option A) : res A :=
  match x with
  | Some a => Ok a
  | None => Err UnboundLocalError
  end.

(** Reading a module-level name. *)
Definition read_global {A : Type} (x : option A) : res A :=
  match x with
  | Some a => Ok a
  | None => Err NameError
  end.

(** [l[i]] on a Python list, for a non-negative literal index. *)
Definition list_getitem {A : Type} (l : list A) (i : nat) : res A :=
  match nth_error l i with
  | Some a => Ok a
  | None => Err IndexError
  end.

(** [d[k]] on a Python dict. *)
Definition dict_getitem {A : Type} (d : gmap string A) (k : string) : res A :=
  match d !! k with
  | Some a => Ok a
  | None => Err KeyError
  end.

(** ** Tables *)

Inductive DataType : Type :=
| ByteType | ShortType | IntegerType | LongType | FloatType | DoubleType
| DecimalType | StringType | BooleanType | TimestampType | VectorUDT.

(** [str(dataType)]: the class name. *)
Definition type_name (t : DataType) : string :=
  match t with
  | ByteType => "ByteType"
  | ShortType => "ShortType"
  | IntegerType => "IntegerType"
  | LongType => "LongType"
  | FloatType => "FloatType"
  | DoubleType => "DoubleType"
  | DecimalType => "DecimalType(10,0)"
  | StringType => "StringType"
  | BooleanType => "BooleanType"
  | TimestampType => "TimestampType"
  | VectorUDT => "VectorUDT"
  end.

(** Spark's [NumericType]. *)
Definition is_numeric (t : DataType) : bool :=
  match t with
  | ByteType | ShortType | IntegerType | LongType
  | FloatType | DoubleType | DecimalType => true
  | _ => false
  end.

Inductive value : Type :=
| VNull
| VInt (z : Z)
| VNum (r : R)
| VStr (s : string)
| VBool (b : bool)
| VVec (v : list R).

Record StructField : Type := mkField { name : string; dataType : DataType }.

Definition Row : Type := list value.

Record DataFrame : Type := mkDF { schema : list StructField; rows : list Row }.

Definition columns (df : DataFrame) : list string := map name (schema df).

(** The keys [StructType.__getitem__] is called with in the script: a column
    name, or a [Column] object (what iterating a DataFrame yields). *)
Inductive key : Type :=
| KeyStr (s : string)
| KeyColumn (c : string).

(** [schema[key]]: the first field of that name; a key that is neither a
    string, an integer nor a slice is a [TypeError]. *)
Definition schema_getitem (sch : list StructField) (k : key) : res StructField :=
  match k with
  | KeyStr s =>
      match List.find (fun f => String.eqb (name f) s) sch with
      | Some f => Ok f
      | None => Err KeyError
      end
  | KeyColumn _ => Err TypeError
  end.

Fixpoint index_of (s : string) (l : list string) : option nat :=
  match l with
  | [] => None
  | x :: l' => if String.eqb x s then Some 0%nat
               else option_map S (index_of s l')
  end.

Definition count_name (s : string) (l : list string) : nat :=
  List.length (List.filter (String.eqb s) l).

(** Name resolution of the engine: the name must denote exactly one column. *)
Definition resolve (df : DataFrame) (c : string) : res nat :=
  match index_of c (columns df) with
  | Some i => if Nat.eqb (count_name c (columns df)) 1 then Ok i
              else Err AnalysisException
  | None => Err AnalysisException
  end.

Definition cell (i : nat) (r : Row) : value := nth i r VNull.

(** [df.withColumnRenamed(existing, new)]: nothing happens when no column
    has the name. *)
Definition rename_field (existing new : string) (f : StructField) : StructField :=
  if String.eqb (name f) existing then mkField new (dataType f) else f.

Definition withColumnRenamed (existing new : string) (df : DataFrame) : DataFrame :=
  mkDF (map (rename_field existing new) (schema df)) (rows df).

(** ** Column expressions

    A [Column] is an expression tree, as in the engine; it is resolved by
    name against the table it is applied to. *)

Inductive Column : Type :=
| Col (c : string)
| Lit (r : R)
| Lt (a b : Column)
| Gt (a b : Column)
| CaseWhen (c v e : Column)
| Plus (a b : Column)
| Log (a : Column)
| Exp (a : Column)
| CastFloat (a : Column)
| Substr (a : Column) (pos len : nat)
| Alias (a : Column) (n : string).

(** [when(c1, v1).when(c2, v2).otherwise(e)] *)
Definition when_when_otherwise (c1 v1 c2 v2 e : Column) : Column :=
  CaseWhen c1 v1 (CaseWhen c2 v2 e).

(** The numeric aggregates and conversions of the engine that the script
    calls and whose result it only tests or stores. *)
Record Engine : Type := mkEngine {
  (** the cast of one cell to [FloatType] *)
  cast_to_float : value -> value;
  (** [approxQuantile] over the cells of one column: probabilities, relative error *)
  approx_quantile : list value -> list R -> R -> list R;
  (** the [skewness] aggregate over the cells of one column; [None] is SQL NULL *)
  agg_skewness : list value -> option R;
  (** [StringIndexer(inputCol, outputCol).fit(df).transform(df)] *)
  string_indexer : string -> string -> DataFrame -> res DataFrame
}.

Definition field_at (i : nat) (sch : list StructField) : StructField :=
  nth i sch (mkField "" StringType).

Definition num_of (v : value) : option R :=
  match v with
  | VInt z => Some (IZR z)
  | VNum r => Some r
  | _ => None
  end.

Definition numeric_args (ta tb : DataType) : res unit :=
  if is_numeric ta && is_numeric tb then Ok tt else Err AnalysisException.

(** The analysis of an expression against a schema: its type, or an
    [AnalysisException]. *)
Fixpoint typeof (df : DataFrame) (e : Column) : res DataType :=
  match e with
  | Col c => let* i := resolve df c in Ok (dataType (field_at i (schema df)))
  | Lit _ => Ok DoubleType
  | Lt a b | Gt a b =>
      let* ta := typeof df a in
      let* tb := typeof df b in
      let* _ := numeric_args ta tb in
      Ok BooleanType
  | CaseWhen c v e' =>
      let* tc := typeof df c in
      let* tv := typeof df v in
      let* te := typeof df e' in
      let* _ := numeric_args tv te in
      match tc with
      | BooleanType => Ok DoubleType
      | _ => Err AnalysisException
      end
  | Plus a b =>
      let* ta := typeof df a in
      let* tb := typeof df b in
      let* _ := numeric_args ta tb in
      Ok DoubleType
  | Log a | Exp a =>
      let* ta := typeof df a in
      let* _ := numeric_args ta ta in
      Ok DoubleType
  | CastFloat a =>
      let* ta := typeof df a in
      match ta with
      | VectorUDT => Err AnalysisException
      | _ => Ok FloatType
      end
  | Substr a _ _ =>
      let* ta := typeof df a in
      match ta with
      | StringType => Ok StringType
      | _ => Err AnalysisException
      end
  | Alias a _ => typeof df a
  end.

Definition column_index (names : list string) (c : string) : nat :=
  match index_of c names with
  | Some i => i
  | None => List.length names
  end.

Section Evaluation.

Variable E : Engine.

(** The value of an expression on one row (NULL propagates). *)
Fixpoint eval (names : list string) (r : Row) (e : Column) : value :=
  match e with
  | Col c => cell (column_index names c) r
  | Lit x => VNum x
  | Lt a b =>
      match num_of (eval names r a), num_of (eval names r b) with
      | Some x, Some y => VBool (if Rlt_dec x y then true else false)
      | _, _ => VNull
      end
  | Gt a b =>
      match num_of (eval names r a), num_of (eval names r b) with
      | Some x, Some y => VBool (if Rgt_dec x y then true else false)
      | _, _ => VNull
      end
  | CaseWhen c v e' =>
      match eval names r c with
      | VBool true => eval names r v
      | _ => eval names r e'
      end
  | Plus a b =>
      match num_of (eval names r a), num_of (eval names r b) with
      | Some x, Some y => VNum (x + y)
      | _, _ => VNull
      end
  | Log a =>
      match num_of (eval names r a) with
      | Some x => if Rlt_dec 0 x then VNum (ln x) else VNull
      | None => VNull
      end
  | Exp a =>
      match num_of (eval names r a) with
      | Some x => VNum (exp x)
      | None => VNull
      end
  | CastFloat a => cast_to_float E (eval names r a)
  | Substr a pos len =>
      match eval names r a with
      | VStr s => VStr (String.substring (pos - 1) len s)
      | _ => VNull
      end
  | Alias a _ => eval names r a
  end.

(** [df[c]]: an attribute reference, after the name is resolved in [df]. *)
Definition df_getitem (df : DataFrame) (c : string) : res Column :=
  let* _ := resolve df c in Ok (Col c).

Fixpoint replace_cells (names : list string) (c : string) (v : value) (r : Row) : Row :=
  match names, r with
  | n :: names', x :: r' =>
      (if String.eqb n c then v else x) :: replace_cells names' c v r'
  | _, _ => r
  end.

(** [df.withColumn(c, e)]: replaces the columns named [c] in place, or
    appends a new column. *)
Definition withColumn (c : string) (e : Column) (df : DataFrame) : res DataFrame :=
  let* t := typeof df e in
  let names := columns df in
  if existsb (String.eqb c) names
  then Ok (mkDF (map (fun f => if String.eqb (name f) c then mkField c t else f)
                     (schema df))
                (map (fun r => replace_cells names c (eval names r e) r) (rows df)))
  else Ok (mkDF (schema df ++ [mkField c t])
                (map (fun r => r ++ [eval names r e]) (rows df))).

(** [df.select(c1, ..., cn)] *)
Definition select (cs : list string) (df : DataFrame) : res DataFrame :=
  let* idx := res_map (resolve df) cs in
  Ok (mkDF (map (fun i => field_at i (schema df)) idx)
           (map (fun r => map (fun i => cell i r) idx) (rows df))).

End Evaluation.

(** ** Feature transformers *)

Local Open Scope R_scope.

(** What one cell contributes to the assembled vector; a NULL (or a string)
    makes the assembler fail. *)
Definition to_double (v : value) : res (list R) :=
  match v with
  | VInt z => Ok [IZR z]
  | VNum r => Ok [r]
  | VBool b => Ok [if b then 1 else 0]
  | VVec l => Ok l
  | VNull | VStr _ => Err SparkException
  end.

Definition assemblable (t : DataType) : bool :=
  match t with
  | BooleanType | VectorUDT => true
  | _ => is_numeric t
  end.

Definition assembler_input (df : DataFrame) (c : string) : res nat :=
  let* i := resolve df c in
  if assemblable (dataType (field_at i (schema df))) then Ok i
  else Err IllegalArgumentException.

Definition assemble_row (idx : list nat) (r : Row) : res (list R) :=
  let* parts := res_map (fun i => to_double (cell i r)) idx in
  Ok (concat parts).

(** [VectorAssembler(inputCols, outputCol).transform(df)] *)
Definition VectorAssembler_transform
    (inputCols : list string) (outputCol : string) (df : DataFrame) : res DataFrame :=
  let* idx := res_map (assembler_input df) inputCols in
  if existsb (String.eqb outputCol) (columns df) then Err IllegalArgumentException
  else
    let* rs := res_map (fun r => let* v := assemble_row idx r in Ok (r ++ [VVec v]))
                       (rows df) in
    Ok (mkDF (schema df ++ [mkField outputCol VectorUDT]) rs).

Record MinMaxScalerModel : Type :=
  mkScaler { originalMin : list R; originalMax : list R }.

Definition vector_cell (i : nat) (r : Row) : res (list R) :=
  match cell i r with
  | VVec v => Ok v
  | _ => Err SparkException
  end.

Definition vector_column (df : DataFrame) (c : string) : res (list (list R)) :=
  let* i := resolve df c in
  match dataType (field_at i (schema df)) with
  | VectorUDT => res_map (vector_cell i) (rows df)
  | _ => Err IllegalArgumentException
  end.

Fixpoint map2 {A B C : Type} (f : A -> B -> C) (l : list A) (l' : list B) : list C :=
  match l, l' with
  | a :: t, b :: t' => f a b :: map2 f t t'
  | _, _ => []
  end.

(** One more vector enters the summary: the dimensions must agree. *)
Definition summarize (m : MinMaxScalerModel) (v : list R) : res MinMaxScalerModel :=
  if Nat.eqb (List.length v) (List.length (originalMin m))
  then Ok (mkScaler (map2 Rmin (originalMin m) v) (map2 Rmax (originalMax m) v))
  else Err SparkException.

(** [MinMaxScaler(inputCol, outputCol).fit(df)]: the minimum and the maximum
    of every feature; nothing can be fitted on an empty table. *)
Definition MinMaxScaler_fit (inputCol : string) (df : DataFrame) : res MinMaxScalerModel :=
  let* vs := vector_column df inputCol in
  match vs with
  | [] => Err IllegalArgumentException
  | v :: vs' => res_fold summarize vs' (mkScaler v v)
  end.

(** Rescaling of one feature to the default range [0, 1]; a constant
    feature goes to the middle of the range. *)
Definition rescale (lo hi x : R) : R :=
  let raw := if Req_dec_T (hi - lo) 0 then 0.5 else (x - lo) / (hi - lo) in
  raw * (1 - 0) + 0.

Fixpoint rescale_vector (los his xs : list R) : list R :=
  match los, his, xs with
  | lo :: los', hi :: his', x :: xs' => rescale lo hi x :: rescale_vector los' his' xs'
  | _, _, _ => []
  end.

Definition scale_row (m : MinMaxScalerModel) (i : nat) (r : Row) : res Row :=
  let* v := vector_cell i r in
  if Nat.eqb (List.length v) (List.length (originalMin m))
  then Ok (r ++ [VVec (rescale_vector (originalMin m) (originalMax m) v)])
  else Err SparkException.

(** [scalerModel.transform(df)] *)
Definition MinMaxScalerModel_transform
    (m : MinMaxScalerModel) (inputCol outputCol : string) (df : DataFrame) : res DataFrame :=
  let* i := resolve df inputCol in
  match dataType (field_at i (schema df)) with
  | VectorUDT =>
      if existsb (String.eqb outputCol) (columns df) then Err IllegalArgumentException
      else
        let* rs := res_map (scale_row m i) (rows df) in
        Ok (mkDF (schema df ++ [mkField outputCol VectorUDT]) rs)
  | _ => Err IllegalArgumentException
  end.

(** ** Data preparation: [func_modulo_prep_dados] *)

(** The locals the classification loop assigns. *)
Record prep_locals : Type := mkLocals {
  variaveis_numericas : list string;
  variaveis_categoricas : list string;
  df_indexed : option DataFrame
}.

(** [skew > y] and [skew < y] in Python: comparing [None] with a number
    raises. *)
Definition py_gt (x : option R) (y : R) : res bool :=
  match x with
  | Some v => Ok (if Rgt_dec v y then true else false)
  | None => Err TypeError
  end.

Definition py_lt (x : option R) (y : R) : res bool :=
  match x with
  | Some v => Ok (if Rlt_dec v y then true else false)
  | None => Err TypeError
  end.

Section Prep.

Variable E : Engine.

(** Lines 66-70: the output column becomes [label], and is cast to float
    unless its type prints as [IntegerType]. *)
Definition prep_label (df : DataFrame) (variavel_saida : string) : res DataFrame :=
  let novo_df := withColumnRenamed variavel_saida "label" df in
  let* f := schema_getitem (schema novo_df) (KeyStr "label") in
  if negb (String.eqb (type_name (dataType f)) "IntegerType")
  then let* c := df_getitem novo_df "label" in
       withColumn E "label" (CastFloat c) novo_df
  else Ok novo_df.

(** Lines 77-94: one iteration of the loop over [variaveis_entrada]. *)
Definition classify_step (novo_df : DataFrame) (st : prep_locals) (coluna : string)
    : res prep_locals :=
  let* f := schema_getitem (schema novo_df) (KeyStr coluna) in
  if String.eqb (type_name (dataType f)) "StringType"
  then let novo_nome_coluna := String.append coluna "_num" in
       Ok (mkLocals (variaveis_numericas st)
                    (variaveis_categoricas st ++ [novo_nome_coluna])
                    (df_indexed st))
  else Ok (mkLocals (variaveis_numericas st ++ [coluna])
                    (variaveis_categoricas st)
                    (Some novo_df)).

(** Lines 101-110: one iteration of [for coluna in novo_df]; iterating a
    DataFrame yields its [Column] objects, and the schema is indexed with
    that object. *)
Definition index_step (novo_df : DataFrame) (dfi : option DataFrame) (coluna : string)
    : res (option DataFrame) :=
  let* f := schema_getitem (schema novo_df) (KeyColumn coluna) in
  if String.eqb (type_name (dataType f)) "StringType"
  then let* d := string_indexer E coluna (String.append coluna "_num") novo_df in
       Ok (Some d)
  else Ok dfi.

(** Lines 98-114. *)
Definition index_categoricals (novo_df : DataFrame) (st : prep_locals)
    : res (option DataFrame) :=
  if negb (Nat.eqb (List.length (variaveis_categoricas st)) 0)
  then res_fold (index_step novo_df) (columns novo_df) (df_indexed st)
  else Ok (Some novo_df).

(** [df.approxQuantile(col, probabilities, relativeError)] *)
Definition df_approxQuantile (df : DataFrame) (col : string) (probs : list R) (err : R)
    : res (list R) :=
  let* i := resolve df col in
  if is_numeric (dataType (field_at i (schema df)))
  then Ok (approx_quantile E (map (cell i) (rows df)) probs err)
  else Err IllegalArgumentException.

(** [df.agg(skewness(df[col])).collect()[0][0]] *)
Definition df_skewness (df : DataFrame) (col : string) : res (option R) :=
  let* c := df_getitem df col in
  let* t := typeof df c in
  if is_numeric t || String.eqb (type_name t) "StringType"
  then Ok (agg_skewness E (map (cell (column_index (columns df) col)) (rows df)))
  else Err AnalysisException.

(** Lines 124-125: one iteration of the loop that fills the dictionary [d]. *)
Definition quantile_step (df_indexed : option DataFrame) (d : gmap string (list R))
    (col : string) : res (gmap string (list R)) :=
  let* dfi := read_local df_indexed in
  let* q := df_approxQuantile dfi col [0.01; 0.99] 0.25 in
  Ok (<[col := q]> d).

(** Line 138: the expression of the positive-skew branch.  The first [when]
    refers to the column of [df], the second and the [otherwise] to the
    column of [df_indexed]. *)
Definition log_clip_expr (df dfi : DataFrame) (d : gmap string (list R)) (col : string)
    : res Column :=
  let* c0 := df_getitem df col in
  let* q0 := dict_getitem d col in
  let* p1 := list_getitem q0 0 in
  let* c1 := df_getitem dfi col in
  let* q1 := dict_getitem d col in
  let* p99 := list_getitem q1 1 in
  let* c2 := df_getitem dfi col in
  Ok (Alias (Log (Plus (when_when_otherwise (Lt c0 (Lit p1)) (Lit p1)
                                            (Gt c1 (Lit p99)) (Lit p99) c2)
                       (Lit 1)))
            col).

(** Line 143: the expression of the negative-skew branch. *)
Definition exp_clip_expr (df dfi : DataFrame) (d : gmap string (list R)) (col : string)
    : res Column :=
  let* c0 := df_getitem df col in
  let* q0 := dict_getitem d col in
  let* p1 := list_getitem q0 0 in
  let* c1 := df_getitem dfi col in
  let* q1 := dict_getitem d col in
  let* p99 := list_getitem q1 1 in
  let* c2 := df_getitem dfi col in
  Ok (Alias (Exp (when_when_otherwise (Lt c0 (Lit p1)) (Lit p1)
                                      (Gt c1 (Lit p99)) (Lit p99) c2))
            col).

(** Lines 128-146: one iteration of the transformation loop.  The state is
    the local [indexed], the only name the loop assigns; [df_indexed] is
    only read. *)
Definition outlier_step (df : DataFrame) (df_indexed : option DataFrame)
    (d : gmap string (list R)) (indexed : option DataFrame) (col : string)
    : res (option DataFrame) :=
  let* dfi := read_local df_indexed in
  let* skew := df_skewness dfi col in
  let* pos := py_gt skew 1 in
  if pos
  then let* e := log_clip_expr df dfi d col in
       let* t := withColumn E col e dfi in
       Ok (Some t)
  else
    let* neg := py_lt skew (-1) in
    if neg
    then let* e := exp_clip_expr df dfi d col in
         let* t := withColumn E col e dfi in
         Ok (Some t)
    else Ok indexed.

(** Lines 117-146: the outlier block; its result is the final binding of
    [indexed]. *)
Definition tratar_outliers_block (df : DataFrame) (st : prep_locals)
    (df_indexed : option DataFrame) : res (option DataFrame) :=
  let* d := res_fold (quantile_step df_indexed) (variaveis_numericas st) ∅ in
  res_fold (outlier_step df df_indexed d) (variaveis_numericas st) None.

(** Lines 151-157. *)
Definition vectorize (st : prep_locals) (df_indexed : option DataFrame) : res DataFrame :=
  let lista_atributos := variaveis_numericas st ++ variaveis_categoricas st in
  let* dfi := read_local df_indexed in
  let* t := VectorAssembler_transform lista_atributos "features" dfi in
  select ["features"; "label"] t.

(** Lines 160-186; the second component is the global [scalerModel]. *)
Definition standardize (padronizar_dados : bool) (dados_vetorizados : DataFrame)
    (scalerModel : option MinMaxScalerModel)
    : res (DataFrame * option MinMaxScalerModel) :=
  if padronizar_dados
  then
    let* m := MinMaxScaler_fit "features" dados_vetorizados in
    let* dados_padronizados :=
      MinMaxScalerModel_transform m "features" "scaledFeatures" dados_vetorizados in
    let* dados_finais := select ["label"; "scaledFeatures"] dados_padronizados in
    Ok (withColumnRenamed "scaledFeatures" "features" dados_finais, Some m)
  else Ok (dados_vetorizados, scalerModel).

Definition func_modulo_prep_dados (df : DataFrame) (variaveis_entrada : list string)
    (variavel_saida : string) (tratar_outliers padronizar_dados : bool)
    (scalerModel : option MinMaxScalerModel)
    : res (DataFrame * option MinMaxScalerModel) :=
  let* novo_df := prep_label df variavel_saida in
  let* st := res_fold (classify_step novo_df) variaveis_entrada (mkLocals [] [] None) in
  let* df_indexed := index_categoricals novo_df st in
  let* _ := (if tratar_outliers then tratar_outliers_block df st df_indexed
             else Ok None) in
  let* dados_vetorizados := vectorize st df_indexed in
  standardize padronizar_dados dados_vetorizados scalerModel.

End Prep.

(** ** Model selection: [func_modulo_ml] and the training loop

    Console output is not modelled.  The estimators, cross-validation and
    the evaluators are parameters: the script only converts their metrics
    to strings and stores the fitted models. *)

Inductive Regressor : Type :=
| LinearRegression | DecisionTreeRegressor | RandomForestRegressor
| GBTRegressor | IsotonicRegression.

(** [type(algoritmo).__name__] *)
Definition class_name (a : Regressor) : string :=
  match a with
  | LinearRegression => "LinearRegression"
  | DecisionTreeRegressor => "DecisionTreeRegressor"
  | RandomForestRegressor => "RandomForestRegressor"
  | GBTRegressor => "GBTRegressor"
  | IsotonicRegression => "IsotonicRegression"
  end.

(** Lines 244-247. *)
Definition func_tipo_algo (algo_regressao : Regressor) : string :=
  class_name algo_regressao.

(** [a in (b)] with a parenthesised string [b]: the substring test. *)
Definition py_in_str (a b : string) : bool :=
  match String.index 0 a b with
  | Some _ => true
  | None => false
  end.

Inductive Param : Type :=
| regParam (x : R)
| maxBins (n : nat)
| numTrees (n : nat)
| maxIter (n : nat)
| isotonic (b : bool).

Definition ParamMap : Type := list Param.

(** [ParamGridBuilder()], [.addGrid(param, values)], [.build()] *)
Definition ParamGridBuilder : list ParamMap := [[]].

Definition addGrid {A : Type} (param : A -> Param) (values : list A)
    (grid : list ParamMap) : list ParamMap :=
  flat_map (fun pm => map (fun v => pm ++ [param v]) values) grid.

Inductive Metric : Type := rmse_metric | r2_metric.

Record MLlib : Type := mkMLlib {
  Model : Type;
  (** [CrossValidator(estimator, estimatorParamMaps, evaluator, numFolds).fit(df).bestModel] *)
  crossval_best : Regressor -> list ParamMap -> Metric -> nat -> DataFrame -> Model;
  (** [model.transform(df)] *)
  predict : Model -> DataFrame -> DataFrame;
  (** [RegressionEvaluator(metricName).evaluate(predictions)] *)
  evaluate : Metric -> DataFrame -> R;
  (** [str(x)] of a Python float *)
  float_str : R -> string
}.

(** The module-level names the model-selection code reads and writes. *)
Record ml_globals (L : MLlib) : Type := mkGlobals {
  regressor : option Regressor;
  LR_BestModel : option (Model L);
  DT_BestModel : option (Model L);
  RF_BestModel : option (Model L);
  GBT_BestModel : option (Model L);
  ISO_BestModel : option (Model L)
}.
Arguments mkGlobals {L}.
Arguments regressor {L}.
Arguments LR_BestModel {L}.
Arguments DT_BestModel {L}.
Arguments RF_BestModel {L}.
Arguments GBT_BestModel {L}.
Arguments ISO_BestModel {L}.

Definition infer_type (v : value) : DataType :=
  match v with
  | VInt _ => LongType
  | VNum _ => DoubleType
  | VBool _ => BooleanType
  | VVec _ => VectorUDT
  | VStr _ | VNull => StringType
  end.

(** [spark.createDataFrame(rows, names)]: the types are those of the cells of
    the first row. *)
Definition createDataFrame (data : list Row) (names : list string) : DataFrame :=
  mkDF (map2 (fun n v => mkField n (infer_type v)) names (hd [] data)) data.

(** [a.union(b)]: by position; the two tables must have as many columns. *)
Definition union (a b : DataFrame) : res DataFrame :=
  if Nat.eqb (List.length (schema a)) (List.length (schema b))
  then Ok (mkDF (schema a) (rows a ++ rows b))
  else Err AnalysisException.

(** [df.where("c != 's'")] *)
Definition where_ne (c s : string) (df : DataFrame) : res DataFrame :=
  let* i := resolve df c in
  Ok (mkDF (schema df)
           (List.filter (fun r => match cell i r with
                                  | VStr x => negb (String.eqb x s)
                                  | _ => false
                                  end) (rows df))).

Section ModelSelection.

Variable E : Engine.
Variable L : MLlib.
Variables dados_treino dados_teste : DataFrame.

Definition colunas : list string :=
  ["Regressor"; "Resultado_RMSE"; "Resultado_R2"].

(** Lines 253-323: the branch of linear regression.  The first model, fitted
    without cross-validation, is only printed.  The truncated metrics go to
    the columns [Result_RMSE] and [Result_R2]. *)
Definition ml_linear (g : ml_globals L) (tipo_algo : string)
    : res (DataFrame * ml_globals L) :=
  let* reg := read_global (regressor g) in
  let paramGrid := addGrid regParam [0.1; 0.01] ParamGridBuilder in
  let best := crossval_best L reg paramGrid rmse_metric 3 dados_treino in
  let g' := mkGlobals (regressor g) (Some best) (DT_BestModel g) (RF_BestModel g)
                      (GBT_BestModel g) (ISO_BestModel g) in
  let previsoes := predict L best dados_teste in
  let resultado_teste_rmse := evaluate L rmse_metric previsoes in
  let resultado_teste_r2 := evaluate L r2_metric previsoes in
  let rmse_str := float_str L resultado_teste_rmse in
  let r2_str := float_str L resultado_teste_r2 in
  let df_resultado :=
    createDataFrame [[VStr tipo_algo; VStr rmse_str; VStr r2_str]] colunas in
  let* df_resultado :=
    withColumn E "Result_RMSE" (Substr (Col "Resultado_RMSE") 0 5) df_resultado in
  let* df_resultado :=
    withColumn E "Result_R2" (Substr (Col "Resultado_R2") 0 5) df_resultado in
  Ok (df_resultado, g').

(** Lines 328-341: the grid of the other algorithms; [paramGrid] stays
    unassigned when no test succeeds. *)
Definition other_grid (tipo_algo : string) : option (list ParamMap) :=
  let g0 := None in
  let g1 := if py_in_str tipo_algo "DecisionTreeRegressor"
            then Some (addGrid maxBins [10; 20; 40]%nat ParamGridBuilder) else g0 in
  let g2 := if py_in_str tipo_algo "RandomForestRegressor"
            then Some (addGrid numTrees [5; 20]%nat ParamGridBuilder) else g1 in
  let g3 := if py_in_str tipo_algo "GBTRegressor"
            then Some (addGrid maxIter [10; 15]%nat
                         (addGrid maxBins [10; 20]%nat ParamGridBuilder)) else g2 in
  let g4 := if py_in_str tipo_algo "IsotonicRegression"
            then Some (addGrid isotonic [true; false] ParamGridBuilder) else g3 in
  g4.

(** Lines 358-439: the best model goes to the global of its family. *)
Definition store_best (tipo_algo : string) (best : Model L) (g : ml_globals L)
    : ml_globals L :=
  let g1 := if py_in_str tipo_algo "DecisionTreeRegressor"
            then mkGlobals (regressor g) (LR_BestModel g) (Some best) (RF_BestModel g)
                           (GBT_BestModel g) (ISO_BestModel g) else g in
  let g2 := if py_in_str tipo_algo "RandomForestRegressor"
            then mkGlobals (regressor g1) (LR_BestModel g1) (DT_BestModel g1) (Some best)
                           (GBT_BestModel g1) (ISO_BestModel g1) else g1 in
  let g3 := if py_in_str tipo_algo "GBTRegressor"
            then mkGlobals (regressor g2) (LR_BestModel g2) (DT_BestModel g2)
                           (RF_BestModel g2) (Some best) (ISO_BestModel g2) else g2 in
  let g4 := if py_in_str tipo_algo "IsotonicRegression"
            then mkGlobals (regressor g3) (LR_BestModel g3) (DT_BestModel g3)
                           (RF_BestModel g3) (GBT_BestModel g3) (Some best) else g3 in
  g4.

(** Lines 325-465: the branch of the other algorithms.  The truncated
    metrics replace the columns [Resultado_RMSE] and [Resultado_R2]. *)
Definition ml_other (g : ml_globals L) (tipo_algo : string)
    : res (DataFrame * ml_globals L) :=
  let* reg := read_global (regressor g) in
  let* paramGrid := read_local (other_grid tipo_algo) in
  let best := crossval_best L reg paramGrid rmse_metric 3 dados_treino in
  let g' := store_best tipo_algo best g in
  let previsoes := predict L best dados_teste in
  let rmse := evaluate L rmse_metric previsoes in
  let rmse_str := float_str L rmse in
  let r2 := evaluate L r2_metric previsoes in
  let r2_str := float_str L r2 in
  let df_resultado :=
    createDataFrame [[VStr tipo_algo; VStr rmse_str; VStr r2_str]] colunas in
  let* df_resultado :=
    withColumn E "Resultado_RMSE" (Substr (Col "Resultado_RMSE") 0 5) df_resultado in
  let* df_resultado :=
    withColumn E "Resultado_R2" (Substr (Col "Resultado_R2") 0 5) df_resultado in
  Ok (df_resultado, g').

(** Lines 241-465.  The argument only selects the branch; the estimator that
    is fitted is the global [regressor]. *)
Definition func_modulo_ml (g : ml_globals L) (algoritmo_regressao : Regressor)
    : res (DataFrame * ml_globals L) :=
  let tipo_algo := func_tipo_algo algoritmo_regressao in
  if String.eqb tipo_algo "LinearRegression"
  then ml_linear g tipo_algo
  else ml_other g tipo_algo.

(** Line 475. *)
Definition regressores : list Regressor :=
  [LinearRegression; DecisionTreeRegressor; RandomForestRegressor;
   GBTRegressor; IsotonicRegression].

(** Lines 478-482: the summary table and its placeholder row. *)
Definition df_resultados_treinamento : DataFrame :=
  createDataFrame [[VStr "N/A"; VStr "N/A"; VStr "N/A"]] colunas.

(** Lines 485-491: one iteration of the training loop; the loop variable
    is the global [regressor]. *)
Definition training_step (st : DataFrame * ml_globals L) (r : Regressor)
    : res (DataFrame * ml_globals L) :=
  let g := mkGlobals (Some r) (LR_BestModel (snd st)) (DT_BestModel (snd st))
                     (RF_BestModel (snd st)) (GBT_BestModel (snd st))
                     (ISO_BestModel (snd st)) in
  let* out := func_modulo_ml g r in
  let* u := union (fst st) (fst out) in
  Ok (u, snd out).

(** Lines 482-494: the loop over a list of regressors, then the filter. *)
Definition run_training (rs : list Regressor) (g : ml_globals L)
    : res (DataFrame * ml_globals L) :=
  let* st := res_fold training_step rs (df_resultados_treinamento, g) in
  let* t := where_ne "Regressor" "N/A" (fst st) in
  Ok (t, snd st).

(** ** Scoring a new record (lines 512-543) *)

Definition lista_atributos : list string :=
  ["cement"; "slag"; "flyash"; "water"; "superplasticizer";
   "coarseaggregate"; "fineaggregate"; "age"].

Definition values : list Row :=
  [[VInt 540; VNum 0; VNum 0; VInt 162; VNum 2.5; VInt 1040; VInt 676; VInt 28]].

(** Lines 512-531: the record, [log(age) + 1] on its [age], and the assembled
    vector.  [dados_columns] is [dados.columns], the header of the data
    set. *)
Definition novos_dados_features (dados_columns : list string) : res DataFrame :=
  let column_names := firstn 8 dados_columns in
  let novos_dados := createDataFrame values column_names in
  let* novos_dados := withColumn E "age" (Plus (Log (Col "age")) (Lit 1)) novos_dados in
  let* t := VectorAssembler_transform lista_atributos "features" novos_dados in
  select ["features"] t.

(** Lines 534-543: scaling with the global [scalerModel] and scoring with
    the global [GBT_BestModel]. *)
Definition score_novos_dados (dados_columns : list string)
    (scalerModel : option MinMaxScalerModel) (g : ml_globals L) : res DataFrame :=
  let* novos_dados := novos_dados_features dados_columns in
  let* m := read_global scalerModel in
  let* novos_dados_scaled :=
    MinMaxScalerModel_transform m "features" "scaledFeatures" novos_dados in
  let* novos_dados_final := select ["scaledFeatures"] novos_dados_scaled in
  let novos_dados_final := withColumnRenamed "scaledFeatures" "features" novos_dados_final in
  let* gbt := read_global (GBT_BestModel g) in
  Ok (predict L gbt novos_dados_final).

End ModelSelection.

(** ** A sample engine and sample tables *)

Fixpoint numbers (cells : list value) : list R :=
  match cells with
  | [] => []
  | v :: cells' =>
      match num_of v with
      | Some x => x :: numbers cells'
      | None => numbers cells'
      end
  end.

Definition Rsum (xs : list R) : R := fold_right Rplus 0 xs.

(** The skewness aggregate: [sqrt n * m3 / sqrt (m2 * m2 * m2)] over the
    non-NULL cells, NULL when there is no cell or no spread. *)
Definition moment_skewness (xs : list R) : option R :=
  match xs with
  | [] => None
  | _ :: _ =>
      let n := INR (List.length xs) in
      let avg := Rsum xs / n in
      let m2 := Rsum (map (fun x => (x - avg) * (x - avg)) xs) in
      let m3 := Rsum (map (fun x => (x - avg) * (x - avg) * (x - avg)) xs) in
      if Req_dec_T m2 0 then None
      else Some (sqrt n * m3 / sqrt (m2 * m2 * m2))
  end.

(** An admissible answer of [approxQuantile] on a handful of cells: the
    least cell below the median, the greatest above. *)
Definition extreme_quantile (cells : list value) (probs : list R) (err : R) : list R :=
  match numbers cells with
  | [] => []
  | x :: xs =>
      map (fun p => if Rlt_dec p (1 / 2) then fold_right Rmin x xs
                    else fold_right Rmax x xs) probs
  end.

Definition cast_number (v : value) : value :=
  match v with
  | VInt z => VNum (IZR z)
  | VNum r => VNum r
  | VBool b => VNum (if b then 1 else 0)
  | _ => VNull
  end.

Definition sample_engine : Engine :=
  mkEngine cast_number extreme_quantile
           (fun cells => moment_skewness (numbers cells))
           (fun _ _ _ => Err AnalysisException).

(** Three small values and a large one: skewness above 1. *)
Definition right_tailed : DataFrame :=
  mkDF [mkField "x" DoubleType; mkField "y" DoubleType]
       [[VNum 0; VNum 10]; [VNum 0; VNum 20]; [VNum 0; VNum 30]; [VNum 1; VNum 40]].

(** Three large values and a small one: skewness below -1. *)
Definition left_tailed : DataFrame :=
  mkDF [mkField "x" DoubleType; mkField "y" DoubleType]
       [[VNum 1; VNum 10]; [VNum 1; VNum 20]; [VNum 1; VNum 30]; [VNum 0; VNum 40]].

(** Two values around their mean: skewness 0. *)
Definition balanced : DataFrame :=
  mkDF [mkField "x" DoubleType; mkField "y" DoubleType]
       [[VNum 0; VNum 10]; [VNum 1; VNum 20]].

(** A data set with the header of the script and two rows; the first row
    holds the values of the new record. *)
Definition dados_amostra : DataFrame :=
  mkDF [mkField "cement" DoubleType; mkField "slag" DoubleType;
        mkField "flyash" DoubleType; mkField "water" DoubleType;
        mkField "superplasticizer" DoubleType; mkField "coarseaggregate" DoubleType;
        mkField "fineaggregate" DoubleType; mkField "age" IntegerType;
        mkField "csMPa" DoubleType]
       [[VNum 540; VNum 0; VNum 0; VNum 162; VNum 2.5; VNum 1040; VNum 676;
         VInt 28; VNum 79.99];
        [VNum 332.5; VNum 142.5; VNum 1; VNum 228; VNum 0; VNum 932; VNum 594;
         VInt 270; VNum 40.27]].

(** The tables the function returns on the samples, without
    standardization: the features are the input cells. *)
Definition prepared (data : list (R * R)) : DataFrame :=
  mkDF [mkField "features" VectorUDT; mkField "label" FloatType]
       (map (fun p => [VVec [fst p]; VNum (snd p)]) data).

(** ** What the specification says of the skewed columns *)

Definition clip (x p1 p99 : R) : R :=
  if Rlt_dec x p1 then p1 else if Rgt_dec x p99 then p99 else x.

Definition spec_log_clip (p1 p99 x : R) : R := ln (clip x p1 p99 + 1).

Definition spec_exp_clip (p1 p99 x : R) : R := exp (clip x p1 p99).

(** ** Properties used in the statements *)

(** Rows that have one cell per field of the schema. *)
Definition wf_rows (df : DataFrame) : Prop :=
  Forall (fun r : Row => List.length r = List.length (schema df)) (rows df).

(** The metrics of the model cross-validation selects for estimator [r],
    evaluated on the test split, as Python prints them. *)
Definition test_metric_str (L : MLlib) (dados_treino dados_teste : DataFrame)
    (r : Regressor) (grid : list ParamMap) (m : Metric) : string :=
  float_str L
    (evaluate L m
       (predict L (crossval_best L r grid rmse_metric 3 dados_treino) dados_teste)).

Definition truncate5 (s : string) : string := String.substring 0 5 s.

(** The type of [label] after line 70. *)
Definition label_type (t : DataType) : DataType :=
  if String.eqb (type_name t) "IntegerType" then IntegerType else FloatType.

(** The row of the prepared table, given the row of the input table. *)
Definition label_row (E : Engine) (t : DataType) (names : list string) (i : nat)
    (r : Row) : Row :=
  if String.eqb (type_name t) "IntegerType" then r
  else replace_cells names "label" (cast_to_float E (cell i r)) r.

(** [xs] lies, feature by feature, between [los] and [his]. *)
Inductive within : list R -> list R -> list R -> Prop :=
| within_nil : within [] [] []
| within_cons lo hi x los his xs :
    lo <= x <= hi -> within los his xs -> within (lo :: los) (hi :: his) (x :: xs).

(** An input column the function can process: a numeric column of the input
    table, other than the output column, with a number in every row, on
    which the engine returns a skewness and two quantiles. *)
Definition input_ready (E : Engine) (df : DataFrame) (out col : string) : Prop :=
  col <> "label" /\ col <> out /\
  exists i t,
    nth_error (schema df) i = Some (mkField col t) /\
    count_name col (columns df) = 1%nat /\
    is_numeric t = true /\
    Forall (fun r => num_of (cell i r) <> None) (rows df) /\
    agg_skewness E (map (cell i) (rows df)) <> None /\
    (2 <= List.length (approx_quantile E (map (cell i) (rows df)) [0.01%R; 0.99%R] 0.25%R))%nat.

(** A call the function answers: the output column exists and is not a
    vector, the renaming leaves one column called [label], no column is
    called [features], every input column is ready, the rows have one cell
    per column and there is at least one row. *)
Record prep_ready (E : Engine) (df : DataFrame) (ins : list string) (out : string)
    : Prop := mkReady {
  ready_output : exists i t, nth_error (schema df) i = Some (mkField out t) /\ t <> VectorUDT;
  ready_label : count_name "label" (columns (withColumnRenamed out "label" df)) = 1%nat;
  ready_features : existsb (String.eqb "features") (columns df) = false;
  ready_inputs : Forall (input_ready E df out) ins;
  ready_rows : wf_rows df;
  ready_nonempty : rows df <> []
}.

(** Every entry of the dictionary of quantiles has its two numbers. *)
Definition two_quantiles (d : gmap string (list R)) : Prop :=
  forall c q, d !! c = Some q -> (2 <= List.length q)%nat.

(** ** Further properties used in the statements *)

(** The global that holds the best model of a family (lines 292, 361, 382,
    403, 424). *)
Definition family_global {L : MLlib} (a : Regressor) (g : ml_globals L)
    : option (Model L) :=
  match a with
  | LinearRegression => LR_BestModel g
  | DecisionTreeRegressor => DT_BestModel g
  | RandomForestRegressor => RF_BestModel g
  | GBTRegressor => GBT_BestModel g
  | IsotonicRegression => ISO_BestModel g
  end.

(** The grid of hyperparameters of a family (lines 273, 329, 333, 337, 341). *)
Definition family_grid (a : Regressor) : list ParamMap :=
  match a with
  | LinearRegression => addGrid regParam [0.1; 0.01] ParamGridBuilder
  | DecisionTreeRegressor => addGrid maxBins [10; 20; 40]%nat ParamGridBuilder
  | RandomForestRegressor => addGrid numTrees [5; 20]%nat ParamGridBuilder
  | GBTRegressor =>
      addGrid maxIter [10; 15]%nat (addGrid maxBins [10; 20]%nat ParamGridBuilder)
  | IsotonicRegression => addGrid isotonic [true; false] ParamGridBuilder
  end.

(** The schema of the table a branch returns (lines 307, 442). *)
Definition schema_resultado : list StructField :=
  [mkField "Regressor" StringType; mkField "Resultado_RMSE" StringType;
   mkField "Resultado_R2" StringType].

(** The row of the summary table for estimator [a]: the name of its class
    and the two metrics of the test split, as strings cut to five
    characters. *)
Definition summary_row (L : MLlib) (dados_treino dados_teste : DataFrame)
    (a : Regressor) : Row :=
  [VStr (class_name a);
   VStr (truncate5 (test_metric_str L dados_treino dados_teste a (family_grid a)
                      rmse_metric));
   VStr (truncate5 (test_metric_str L dados_treino dados_teste a (family_grid a)
                      r2_metric))].

(** A library whose models are trivial and whose metrics print alike. *)
Definition sample_mllib : MLlib :=
  mkMLlib unit (fun _ _ _ _ _ => tt) (fun _ df => df) (fun _ _ => 5.123456)
          (fun _ => "5.123456").

(** An input column whose type prints as [StringType] (line 80). *)
Definition string_typed (novo : DataFrame) (c : string) : Prop :=
  exists f, schema_getitem (schema novo) (KeyStr c) = Ok f /\ dataType f = StringType.

(** A numeric input column of the input table, at position [i], other than
    the output column. *)
Definition input_column (df : DataFrame) (out col : string) (i : nat) : Prop :=
  col <> "label" /\ col <> out /\
  exists t,
    nth_error (schema df) i = Some (mkField col t) /\
    count_name col (columns df) = 1%nat /\
    is_numeric t = true.

(** The output column is at position [i], is not a vector, and the renaming
    leaves one column called [label]. *)
Definition output_column (df : DataFrame) (out : string) (i : nat) : Prop :=
  (exists t, nth_error (schema df) i = Some (mkField out t) /\ t <> VectorUDT) /\
  count_name "label" (columns (withColumnRenamed out "label" df)) = 1%nat.

(** Names without regard to the case of their letters, as the engine
    compares them when it resolves a column; the schema of the Python side
    (lines 67, 80) compares them exactly. *)
Definition lower_ascii (c : Ascii.ascii) : Ascii.ascii :=
  let n := Ascii.nat_of_ascii c in
  if ((65 <=? n) && (n <=? 90))%nat then Ascii.ascii_of_nat (n + 32) else c.

Fixpoint lower (s : string) : string :=
  match s with
  | EmptyString => EmptyString
  | String c s' => String (lower_ascii c) (lower s')
  end.

Definition no_column_named (c : string) (cols : list string) : Prop :=
  Forall (fun x => lower x <> lower c) cols.

(** Two equal values: no spread; the sample engine gives no skewness. *)
Definition constant_x : DataFrame :=
  mkDF [mkField "x" DoubleType; mkField "y" DoubleType]
       [[VNum 5; VNum 10]; [VNum 5; VNum 20]].

(** A missing value in the input column. *)
Definition missing_x : DataFrame :=
  mkDF [mkField "x" DoubleType; mkField "y" DoubleType]
       [[VNum 1; VNum 10]; [VNull; VNum 20]].

(** A string input column. *)
Definition string_x : DataFrame :=
  mkDF [mkField "x" StringType; mkField "y" DoubleType]
       [[VStr "a"; VNum 10]; [VStr "b"; VNum 20]].

(** ** Reasoning about [res] *)

Lemma res_bind_ok {A B : Type} (c : res A) (k : A -> res B) (b : B) :
  res_bind c k = Ok b -> exists a, c = Ok a /\ k a = Ok b.
Proof.
  destruct c as [a|e]; simpl; intros H; [exists a; split; auto | discriminate].
Qed.

Ltac bind_inv H :=
  let a := fresh "a" in
  let Ha := fresh "H" a in
  apply res_bind_ok in H; destruct H as (a & Ha & H).

Tactic Notation "bind_in" hyp(H) "as" ident(a) ident(Ha) :=
  apply res_bind_ok in H; destruct H as (a & Ha & H).

(** ** Generic facts: the error monad, names and positions *)

Lemma res_map_Forall2 {A B : Type} (f : A -> res B) (l : list A) (l' : list B) :
  res_map f l = Ok l' <-> Forall2 (fun a b => f a = Ok b) l l'.
Proof.
  revert l'. induction l as [|a l IH]; intros l'; simpl.
  - split; intros H.
    + injection H as <-. constructor.
    + inversion H. reflexivity.
  - split; intros H.
    + bind_inv H. bind_inv H. injection H as <-.
      constructor; [assumption | apply IH; assumption].
    + inversion H as [|? b ? bs Hb Hbs]; subst.
      rewrite Hb. simpl. apply IH in Hbs. rewrite Hbs. reflexivity.
Qed.

Lemma res_map_nth {A B : Type} (f : A -> res B) (l : list A) (l' : list B) :
  res_map f l = Ok l' ->
  forall j a, nth_error l j = Some a ->
  exists b, nth_error l' j = Some b /\ f a = Ok b.
Proof.
  intros H. apply res_map_Forall2 in H.
  induction H as [|a0 b0 l0 l0' Hab _ IH]; intros j a Hj.
  - destruct j; discriminate.
  - destruct j as [|j]; simpl in *.
    + injection Hj as <-. exists b0. auto.
    + apply IH. assumption.
Qed.

Lemma res_map_total {A B : Type} (f : A -> res B) (l : list A) :
  Forall (fun a => exists b, f a = Ok b) l -> exists l', res_map f l = Ok l'.
Proof.
  induction 1 as [|a l [b Hb] _ [l' IH]]; simpl.
  - exists []. reflexivity.
  - exists (b :: l'). rewrite Hb. simpl. rewrite IH. reflexivity.
Qed.

Lemma res_map_length {A B : Type} (f : A -> res B) (l : list A) (l' : list B) :
  res_map f l = Ok l' -> List.length l' = List.length l.
Proof.
  intros H. apply res_map_Forall2 in H.
  induction H; simpl; congruence.
Qed.

Lemma index_of_lt (c : string) (l : list string) (i : nat) :
  index_of c l = Some i -> (i < List.length l)%nat.
Proof.
  revert i. induction l as [|x l IH]; intros i; simpl; [discriminate|].
  destruct (String.eqb x c).
  - intros [= <-]. lia.
  - destruct (index_of c l) as [k|]; simpl; [|discriminate].
    intros [= <-]. specialize (IH k eq_refl). lia.
Qed.

Lemma index_of_nth (c : string) (l : list string) (i : nat) :
  index_of c l = Some i -> nth_error l i = Some c.
Proof.
  revert i. induction l as [|x l IH]; intros i; simpl; [discriminate|].
  destruct (String.eqb x c) eqn:Hx.
  - intros [= <-]. apply String.eqb_eq in Hx. subst. reflexivity.
  - destruct (index_of c l) as [k|]; simpl; [|discriminate].
    intros [= <-]. simpl. apply IH. reflexivity.
Qed.

Lemma index_of_app_l (c : string) (l l' : list string) (i : nat) :
  index_of c l = Some i -> index_of c (l ++ l') = Some i.
Proof.
  revert i. induction l as [|x l IH]; intros i; simpl; [discriminate|].
  destruct (String.eqb x c); [auto|].
  destruct (index_of c l) as [k|]; simpl; [|discriminate].
  intros [= <-]. rewrite (IH k eq_refl). reflexivity.
Qed.

Lemma index_of_app_new (c : string) (l : list string) :
  index_of c l = None -> index_of c (l ++ [c]) = Some (List.length l).
Proof.
  induction l as [|x l IH]; simpl.
  - rewrite String.eqb_refl. reflexivity.
  - destruct (String.eqb x c); [discriminate|].
    destruct (index_of c l); simpl; [discriminate|].
    intros _. rewrite IH; reflexivity.
Qed.

Lemma index_of_none_existsb (c : string) (l : list string) :
  index_of c l = None <-> existsb (String.eqb c) l = false.
Proof.
  induction l as [|x l IH]; simpl; [tauto|].
  rewrite (String.eqb_sym c x).
  destruct (String.eqb x c); simpl.
  - split; discriminate.
  - rewrite <- IH. destruct (index_of c l); simpl; split; congruence.
Qed.

Lemma count_name_app (c : string) (l l' : list string) :
  count_name c (l ++ l') = (count_name c l + count_name c l')%nat.
Proof.
  unfold count_name. rewrite List.filter_app, List.length_app. reflexivity.
Qed.

Lemma count_name_none (c : string) (l : list string) :
  index_of c l = None -> count_name c l = 0%nat.
Proof.
  unfold count_name. induction l as [|x l IH]; simpl; [reflexivity|].
  rewrite (String.eqb_sym c x).
  destruct (String.eqb x c); [discriminate|].
  destruct (index_of c l); simpl; [discriminate|]. auto.
Qed.

Lemma cell_app_l (i : nat) (r : Row) (v : value) :
  (i < List.length r)%nat -> cell i (r ++ [v]) = cell i r.
Proof. intros H. unfold cell. apply app_nth1. assumption. Qed.

Lemma cell_app_new (r : Row) (v : value) :
  cell (List.length r) (r ++ [v]) = v.
Proof.
  unfold cell. rewrite app_nth2 by lia. rewrite Nat.sub_diag. reflexivity.
Qed.

(** ** The model-selection branches and the summary table *)

Section ModelSelectionFacts.

Variable E : Engine.
Variable L : MLlib.
Variables dados_treino dados_teste : DataFrame.

Lemma ml_other_row (g : ml_globals L) (a r : Regressor) :
  a <> LinearRegression ->
  regressor g = Some r ->
  exists grid g',
    other_grid (class_name a) = Some grid /\
    func_modulo_ml E L dados_treino dados_teste g a =
      Ok (mkDF [mkField "Regressor" StringType;
                mkField "Resultado_RMSE" StringType;
                mkField "Resultado_R2" StringType]
               [[VStr (class_name a);
                 VStr (truncate5 (test_metric_str L dados_treino dados_teste r grid rmse_metric));
                 VStr (truncate5 (test_metric_str L dados_treino dados_teste r grid r2_metric))]],
          g').
Proof.
  intros Ha Hr.
  destruct a; try congruence;
    unfold func_modulo_ml, ml_other; rewrite Hr; cbn;
    eexists; eexists; (split; [reflexivity | reflexivity]).
Qed.

(** C6 (at the branch of linear regression): the table the branch returns
    has five columns; [Resultado_RMSE] and [Resultado_R2] hold the metrics
    as printed, in full, and the truncated metrics are in the two further
    columns [Result_RMSE] and [Result_R2]. *)
Theorem ml_linear_row (r : Regressor) (lr dt rf gbt iso : option (Model L)) :
  let grid := addGrid regParam [0.1; 0.01] ParamGridBuilder in
  exists g',
    func_modulo_ml E L dados_treino dados_teste
      (mkGlobals (Some r) lr dt rf gbt iso) LinearRegression =
      Ok (mkDF [mkField "Regressor" StringType;
                mkField "Resultado_RMSE" StringType;
                mkField "Resultado_R2" StringType;
                mkField "Result_RMSE" StringType;
                mkField "Result_R2" StringType]
               [[VStr "LinearRegression";
                 VStr (test_metric_str L dados_treino dados_teste r grid rmse_metric);
                 VStr (test_metric_str L dados_treino dados_teste r grid r2_metric);
                 VStr (truncate5 (test_metric_str L dados_treino dados_teste r grid rmse_metric));
                 VStr (truncate5 (test_metric_str L dados_treino dados_teste r grid r2_metric))]],
          g').
Proof.
  intros grid. unfold func_modulo_ml, ml_linear. cbn.
  eexists. reflexivity.
Qed.

(** C5: the training loop of the script never completes: at its first
    iteration the table of linear regression has five columns, and its
    union with the three-column summary table is refused. *)
Theorem run_training_raises (g : ml_globals L) :
  run_training E L dados_treino dados_teste regressores g = Err AnalysisException.
Proof.
  unfold run_training, regressores. cbn. reflexivity.
Qed.

(** Without linear regression the loop completes: one row per family, in
    the order of the list, and no placeholder row. *)
Lemma run_training_others (g : ml_globals L) :
  exists t g',
    run_training E L dados_treino dados_teste
      [DecisionTreeRegressor; RandomForestRegressor; GBTRegressor; IsotonicRegression] g
    = Ok (t, g') /\
    map (cell 0) (rows t) =
      [VStr "DecisionTreeRegressor"; VStr "RandomForestRegressor";
       VStr "GBTRegressor"; VStr "IsotonicRegression"].
Proof.
  unfold run_training. cbn. eexists. eexists. split; reflexivity.
Qed.

End ModelSelectionFacts.

(** ** The output column: renaming and cast *)

Lemma count_name_nth (c : string) (l : list string) (i : nat) :
  nth_error l i = Some c -> (1 <= count_name c l)%nat.
Proof.
  unfold count_name. revert i. induction l as [|x l IH]; intros i Hi.
  - destruct i; discriminate.
  - simpl. destruct i as [|i]; simpl in Hi.
    + injection Hi as ->. rewrite String.eqb_refl. simpl. lia.
    + specialize (IH i Hi). destruct (String.eqb c x); simpl; lia.
Qed.

Lemma unique_name_position (c : string) (l : list string) (i : nat) :
  count_name c l = 1%nat -> nth_error l i = Some c -> index_of c l = Some i.
Proof.
  unfold count_name. revert i. induction l as [|x l IH]; intros i Hc Hi.
  - destruct i; discriminate.
  - simpl in *. rewrite (String.eqb_sym x c).
    destruct (String.eqb c x) eqn:Hx; simpl in Hc.
    + destruct i as [|i]; [reflexivity|]. simpl in Hi.
      apply count_name_nth in Hi. unfold count_name in Hi. lia.
    + destruct i as [|i]; simpl in Hi.
      * injection Hi as ->. rewrite String.eqb_refl in Hx. discriminate.
      * rewrite (IH i Hc Hi). reflexivity.
Qed.

Lemma find_index_of (c : string) (sch : list StructField) (i : nat) :
  index_of c (map name sch) = Some i ->
  List.find (fun f => String.eqb (name f) c) sch = nth_error sch i.
Proof.
  revert i. induction sch as [|f sch IH]; intros i; simpl; [discriminate|].
  destruct (String.eqb (name f) c).
  - intros [= <-]. reflexivity.
  - destruct (index_of c (map name sch)) as [k|]; simpl; [|discriminate].
    intros [= <-]. simpl. apply IH. reflexivity.
Qed.

Lemma field_at_nth (sch : list StructField) (i : nat) (f : StructField) :
  nth_error sch i = Some f -> field_at i sch = f.
Proof. intros H. unfold field_at. apply nth_error_nth. assumption. Qed.

Lemma resolve_unique (df : DataFrame) (c : string) (i : nat) :
  count_name c (columns df) = 1%nat ->
  nth_error (columns df) i = Some c ->
  resolve df c = Ok i.
Proof.
  intros Hc Hi. unfold resolve.
  rewrite (unique_name_position _ _ _ Hc Hi), Hc. reflexivity.
Qed.

Lemma resolve_ok (df : DataFrame) (c : string) (i : nat) :
  resolve df c = Ok i ->
  index_of c (columns df) = Some i /\ count_name c (columns df) = 1%nat.
Proof.
  unfold resolve. destruct (index_of c (columns df)) as [k|]; [|discriminate].
  destruct (Nat.eqb (count_name c (columns df)) 1) eqn:Hn; [|discriminate].
  intros [= <-]. apply Nat.eqb_eq in Hn. auto.
Qed.

Lemma columns_replace_type (c : string) (t : DataType) (sch : list StructField) :
  map name (map (fun f => if String.eqb (name f) c then mkField c t else f) sch)
  = map name sch.
Proof.
  induction sch as [|f sch IH]; simpl; [reflexivity|].
  rewrite IH. destruct (String.eqb (name f) c) eqn:Hf; [|reflexivity].
  apply String.eqb_eq in Hf. simpl. congruence.
Qed.

Lemma nth_replace_type (c : string) (t : DataType) (sch : list StructField)
    (i : nat) (f : StructField) :
  nth_error sch i = Some f ->
  nth_error (map (fun f => if String.eqb (name f) c then mkField c t else f) sch) i
  = Some (if String.eqb (name f) c then mkField c t else f).
Proof. intros H. rewrite nth_error_map, H. reflexivity. Qed.

Section LabelFacts.

Variable E : Engine.

Lemma withColumn_existing (c : string) (e : Column) (df : DataFrame) (t : DataType) :
  typeof df e = Ok t ->
  existsb (String.eqb c) (columns df) = true ->
  withColumn E c e df =
    Ok (mkDF (map (fun f => if String.eqb (name f) c then mkField c t else f) (schema df))
             (map (fun r => replace_cells (columns df) c (eval E (columns df) r e) r)
                  (rows df))).
Proof.
  intros Ht Hex. unfold withColumn. rewrite Ht. cbn [res_bind]. rewrite Hex.
  reflexivity.
Qed.

Lemma prep_label_total (df : DataFrame) (variavel_saida : string)
    (i : nat) (t : DataType) :
  nth_error (schema df) i = Some (mkField variavel_saida t) ->
  count_name "label" (columns (withColumnRenamed variavel_saida "label" df)) = 1%nat ->
  t <> VectorUDT ->
  exists novo_df,
    prep_label E df variavel_saida = Ok novo_df /\
    columns novo_df = columns (withColumnRenamed variavel_saida "label" df) /\
    nth_error (schema novo_df) i = Some (mkField "label" (label_type t)) /\
    (forall j f, nth_error (schema df) j = Some f ->
       name f <> variavel_saida -> name f <> "label" ->
       nth_error (schema novo_df) j = Some f) /\
    rows novo_df = map (label_row E t (columns novo_df) i) (rows df).
Proof.
  intros Hi Hc Ht.
  set (novo := withColumnRenamed variavel_saida "label" df) in *.
  assert (Hn : nth_error (schema novo) i = Some (mkField "label" t)).
  { unfold novo, withColumnRenamed. simpl. rewrite nth_error_map, Hi. simpl.
    unfold rename_field. simpl. rewrite String.eqb_refl. reflexivity. }
  assert (Hother : forall j f, nth_error (schema df) j = Some f ->
            name f <> variavel_saida -> nth_error (schema novo) j = Some f).
  { intros j f Hj Hf. unfold novo, withColumnRenamed. cbn [schema].
    rewrite nth_error_map, Hj. cbn [option_map]. unfold rename_field.
    apply String.eqb_neq in Hf. rewrite Hf. reflexivity. }
  assert (Hcol : nth_error (columns novo) i = Some "label").
  { unfold columns. rewrite nth_error_map, Hn. reflexivity. }
  pose proof (unique_name_position _ _ _ Hc Hcol) as Hidx.
  assert (Hres : resolve novo "label" = Ok i) by (apply resolve_unique; assumption).
  unfold prep_label, label_type, label_row. fold novo. unfold schema_getitem.
  rewrite (find_index_of _ _ _ Hidx), Hn. cbn [res_bind dataType].
  destruct (String.eqb (type_name t) "IntegerType") eqn:Hint; cbn [negb].
  - assert (t = IntegerType) as ->
      by (destruct t; simpl in Hint; try discriminate; reflexivity).
    exists novo.
    split; [reflexivity|]. split; [reflexivity|]. split; [assumption|].
    split; [intros j f Hj Hf _; apply Hother; assumption|].
    rewrite map_id. reflexivity.
  - assert (Hex : existsb (String.eqb "label") (columns novo) = true).
    { destruct (existsb (String.eqb "label") (columns novo)) eqn:Hex; [reflexivity|].
      apply index_of_none_existsb in Hex. congruence. }
    assert (Hty : typeof novo (CastFloat (Col "label")) = Ok FloatType).
    { cbn [typeof]. rewrite Hres. cbn [res_bind].
      rewrite (field_at_nth _ _ _ Hn). destruct t; try reflexivity. congruence. }
    unfold df_getitem. rewrite Hres. cbn [res_bind].
    rewrite (withColumn_existing _ _ _ _ Hty Hex).
    match goal with |- context [Ok ?d] => set (novo' := d) end.
    assert (Hcols : columns novo' = columns novo).
    { unfold novo', columns. cbn [schema]. apply columns_replace_type. }
    exists novo'. split; [reflexivity|].
    split; [exact Hcols|].
    split.
    { unfold novo'. cbn [schema]. rewrite (nth_replace_type _ _ _ _ _ Hn).
      cbn [name]. rewrite String.eqb_refl. reflexivity. }
    split.
    { intros j f Hj Hf Hl. unfold novo'. cbn [schema].
      rewrite (nth_replace_type _ _ _ _ _ (Hother j f Hj Hf)).
      apply String.eqb_neq in Hl. rewrite Hl. reflexivity. }
    rewrite Hcols. unfold novo'. cbn [rows eval]. unfold column_index.
    rewrite Hidx. reflexivity.
Qed.

(** C7: the output column, at position [i] and of declared type [t], is
    called [label] in the prepared table; when [t] is not numeric its type
    becomes [FloatType] and its cells are cast; when [t] is numeric the new
    type is numeric ([IntegerType] is kept, the other numeric types become
    [FloatType]).  The table is one where the renaming leaves a single
    column called [label], and the column is not a vector. *)
Theorem prep_label_renames_and_casts (df : DataFrame) (variavel_saida : string)
    (i : nat) (t : DataType) :
  nth_error (schema df) i = Some (mkField variavel_saida t) ->
  count_name "label" (columns (withColumnRenamed variavel_saida "label" df)) = 1%nat ->
  t <> VectorUDT ->
  exists novo_df t',
    prep_label E df variavel_saida = Ok novo_df /\
    columns novo_df = columns (withColumnRenamed variavel_saida "label" df) /\
    nth_error (schema novo_df) i = Some (mkField "label" t') /\
    (is_numeric t = false ->
       t' = FloatType /\
       rows novo_df =
         map (fun r => replace_cells (columns novo_df) "label"
                         (cast_to_float E (cell i r)) r) (rows df)) /\
    (is_numeric t = true -> is_numeric t' = true).
Proof.
  intros Hi Hc Ht.
  destruct (prep_label_total df variavel_saida i t Hi Hc Ht)
    as (novo & Hp & Hcols & Hl & _ & Hrows).
  exists novo, (label_type t).
  split; [assumption|]. split; [assumption|]. split; [assumption|].
  unfold label_type, label_row in *.
  destruct t; cbn in *; (split; [intros; try discriminate | intros; try discriminate; reflexivity]);
    (split; [reflexivity | assumption]).
Qed.

End LabelFacts.

(** ** The scaler: every rescaled feature is in the unit interval *)

Lemma rescale_unit (lo hi x : R) : lo <= x <= hi -> 0 <= rescale lo hi x <= 1.
Proof.
  intros [Hlo Hhi]. unfold rescale.
  destruct (Req_dec_T (hi - lo) 0) as [Heq|Hne]; [lra|].
  assert (Hpos : 0 < hi - lo) by lra.
  assert (Hinv : 0 < / (hi - lo)) by (apply Rinv_0_lt_compat; assumption).
  unfold Rdiv. split.
  - assert (0 <= (x - lo) * / (hi - lo)) by (apply Rmult_le_pos; lra). lra.
  - assert ((x - lo) * / (hi - lo) <= (hi - lo) * / (hi - lo))
      by (apply Rmult_le_compat_r; lra).
    rewrite Rinv_r in H by lra. lra.
Qed.

Lemma within_refl (v : list R) : within v v v.
Proof. induction v; constructor; [lra | assumption]. Qed.

Lemma within_length (los his xs : list R) :
  within los his xs ->
  List.length los = List.length xs /\ List.length his = List.length xs.
Proof. induction 1; simpl; [auto | lia]. Qed.

Lemma within_widen (los his xs v : list R) :
  within los his xs -> List.length v = List.length los ->
  within (map2 Rmin los v) (map2 Rmax his v) xs.
Proof.
  intros H. revert v. induction H as [|lo hi x los his xs Hx _ IH]; intros v Hv.
  - destruct v; [constructor | discriminate].
  - destruct v as [|y v]; [discriminate|]. simpl. constructor.
    + pose proof (Rmin_l lo y). pose proof (Rmax_l hi y). lra.
    + apply IH. simpl in Hv. lia.
Qed.

Lemma within_new (los his xs v : list R) :
  within los his xs -> List.length v = List.length los ->
  within (map2 Rmin los v) (map2 Rmax his v) v.
Proof.
  intros H. revert v. induction H as [|lo hi x los his xs Hx _ IH]; intros v Hv.
  - destruct v; [constructor | discriminate].
  - destruct v as [|y v]; [discriminate|]. simpl. constructor.
    + pose proof (Rmin_r lo y). pose proof (Rmax_r hi y). lra.
    + apply IH. simpl in Hv. lia.
Qed.

Lemma rescale_vector_unit (los his xs : list R) :
  within los his xs ->
  Forall (fun x => 0 <= x <= 1) (rescale_vector los his xs).
Proof.
  induction 1; simpl; constructor; [apply rescale_unit; assumption | assumption].
Qed.

(** The summary of a fit bounds every vector it has seen. *)
Lemma summarize_fold_within (vs : list (list R)) (m m' : MinMaxScalerModel)
    (seen : list (list R)) :
  seen <> [] ->
  Forall (within (originalMin m) (originalMax m)) seen ->
  res_fold summarize vs m = Ok m' ->
  Forall (within (originalMin m') (originalMax m')) (seen ++ vs).
Proof.
  revert m seen. induction vs as [|v vs IH]; intros m seen Hne Hseen Hfold.
  - simpl in Hfold. injection Hfold as <-. rewrite app_nil_r. assumption.
  - simpl in Hfold. bind_inv Hfold.
    unfold summarize in Ha.
    destruct (Nat.eqb (List.length v) (List.length (originalMin m))) eqn:Hlen;
      [|discriminate].
    injection Ha as <-. apply Nat.eqb_eq in Hlen.
    replace (seen ++ v :: vs) with ((seen ++ [v]) ++ vs)
      by (rewrite <- app_assoc; reflexivity).
    assert (Hne' : seen ++ [v] <> []) by (destruct seen; discriminate).
    apply (IH _ _ Hne' ltac:(idtac) Hfold) || (eapply IH; [exact Hne'| |exact Hfold]).
    cbn [originalMin originalMax].
    apply Forall_app. split.
    + eapply List.Forall_impl; [|exact Hseen].
      intros w Hw. apply within_widen; assumption.
    + constructor; [|constructor].
      destruct seen as [|w seen]; [congruence|].
      inversion Hseen as [|? ? Hw _]; subst.
      eapply within_new; eassumption.
Qed.

Lemma fit_within (c : string) (df : DataFrame) (m : MinMaxScalerModel)
    (vs : list (list R)) :
  vector_column df c = Ok vs ->
  MinMaxScaler_fit c df = Ok m ->
  Forall (within (originalMin m) (originalMax m)) vs.
Proof.
  intros Hvs Hfit. unfold MinMaxScaler_fit in Hfit. rewrite Hvs in Hfit.
  cbn [res_bind] in Hfit. destruct vs as [|v vs]; [discriminate|].
  apply (summarize_fold_within vs (mkScaler v v) m [v]); [discriminate| |assumption].
  constructor; [apply within_refl | constructor].
Qed.

(** ** Selection, assembly and scaling, step by step *)

Lemma index_of_app_other (c x : string) (l : list string) :
  x <> c -> index_of c (l ++ [x]) = index_of c l.
Proof.
  intros Hx. induction l as [|y l IH]; simpl.
  - apply String.eqb_neq in Hx. rewrite Hx. reflexivity.
  - rewrite IH. reflexivity.
Qed.

Lemma count_name_app_other (c x : string) (l : list string) :
  x <> c -> count_name c (l ++ [x]) = count_name c l.
Proof.
  intros Hx. rewrite count_name_app. unfold count_name at 2. simpl.
  assert (String.eqb c x = false) as -> by (apply String.eqb_neq; congruence).
  simpl. lia.
Qed.

Lemma resolve_app_other (df df' : DataFrame) (c x : string) :
  columns df' = columns df ++ [x] -> x <> c -> resolve df' c = resolve df c.
Proof.
  intros Hcols Hx. unfold resolve.
  rewrite Hcols, index_of_app_other, count_name_app_other by assumption.
  reflexivity.
Qed.

Lemma resolve_app_new (df df' : DataFrame) (x : string) :
  columns df' = columns df ++ [x] ->
  existsb (String.eqb x) (columns df) = false ->
  resolve df' x = Ok (List.length (schema df)).
Proof.
  intros Hcols Hx. apply index_of_none_existsb in Hx. unfold resolve.
  rewrite Hcols, (index_of_app_new _ _ Hx), count_name_app, (count_name_none _ _ Hx).
  unfold count_name. simpl. rewrite String.eqb_refl. simpl.
  unfold columns. rewrite length_map. reflexivity.
Qed.

Lemma resolve_lt (df : DataFrame) (c : string) (i : nat) :
  resolve df c = Ok i -> (i < List.length (schema df))%nat.
Proof.
  intros H. apply resolve_ok in H. destruct H as [H _].
  apply index_of_lt in H. unfold columns in H. rewrite length_map in H. exact H.
Qed.

Lemma resolve_name (df : DataFrame) (c : string) (i : nat) :
  resolve df c = Ok i -> name (field_at i (schema df)) = c.
Proof.
  intros H. apply resolve_ok in H. destruct H as [H _].
  apply index_of_nth in H. unfold columns in H. rewrite nth_error_map in H.
  destruct (nth_error (schema df) i) as [f|] eqn:Hf; [|discriminate].
  rewrite (field_at_nth _ _ _ Hf). simpl in H. congruence.
Qed.

Lemma field_at_app_l (sch : list StructField) (f : StructField) (i : nat) :
  (i < List.length sch)%nat -> field_at i (sch ++ [f]) = field_at i sch.
Proof. intros H. unfold field_at. apply app_nth1. assumption. Qed.

Lemma field_at_app_new (sch : list StructField) (f : StructField) :
  field_at (List.length sch) (sch ++ [f]) = f.
Proof.
  unfold field_at. rewrite app_nth2 by lia. rewrite Nat.sub_diag. reflexivity.
Qed.

Lemma Forall2_map_right {A B C : Type} (P : A -> C -> Prop) (g : B -> C)
    (l : list A) (l' : list B) :
  Forall2 (fun a b => P a (g b)) l l' -> Forall2 P l (map g l').
Proof. induction 1; simpl; constructor; assumption. Qed.

Lemma res_map_two {A B : Type} (f : A -> res B) (x y : A) (l : list B) :
  res_map f [x; y] = Ok l -> exists a b, f x = Ok a /\ f y = Ok b /\ l = [a; b].
Proof.
  cbn [res_map]. intros H. bind_inv H. bind_inv H. bind_inv Ha0.
  cbn [res_bind] in Ha0. injection Ha0 as <-. injection H as <-.
  eauto.
Qed.

Lemma assembler_inv (cs : list string) (out : string) (df t : DataFrame) :
  VectorAssembler_transform cs out df = Ok t ->
  exists idx,
    res_map (assembler_input df) cs = Ok idx /\
    existsb (String.eqb out) (columns df) = false /\
    schema t = schema df ++ [mkField out VectorUDT] /\
    Forall2 (fun r r' => exists v, assemble_row idx r = Ok v /\ r' = r ++ [VVec v])
            (rows df) (rows t).
Proof.
  unfold VectorAssembler_transform. intros H. bind_inv H. exists a.
  destruct (existsb (String.eqb out) (columns df)); [discriminate|].
  bind_inv H. injection H as <-. cbn [schema rows].
  split; [assumption|]. split; [reflexivity|]. split; [reflexivity|].
  apply res_map_Forall2 in Ha0.
  eapply Forall2_impl; [exact Ha0|].
  intros r r' Hr. cbn beta in Hr. bind_inv Hr. injection Hr as <-.
  eexists. split; [eassumption | reflexivity].
Qed.

Lemma vectorize_inv (st : prep_locals) (dfi dv : DataFrame) :
  vectorize st (Some dfi) = Ok dv ->
  exists idx il tl,
    res_map (assembler_input dfi)
            (variaveis_numericas st ++ variaveis_categoricas st) = Ok idx /\
    resolve dfi "label" = Ok il /\
    field_at il (schema dfi) = mkField "label" tl /\
    existsb (String.eqb "features") (columns dfi) = false /\
    schema dv = [mkField "features" VectorUDT; mkField "label" tl] /\
    Forall2 (fun r r' => exists v,
               assemble_row idx r = Ok v /\
               r' = [cell (List.length (schema dfi)) (r ++ [VVec v]);
                     cell il (r ++ [VVec v])])
            (rows dfi) (rows dv).
Proof.
  unfold vectorize. cbn [read_local res_bind]. intros H. bind_inv H.
  destruct (assembler_inv _ _ _ _ Ha) as (idx & Hidx & Hex & Hsch & Hrows).
  assert (Hcols : columns a = columns dfi ++ ["features"]).
  { unfold columns. rewrite Hsch, map_app. reflexivity. }
  unfold select in H. bind_inv H.
  apply res_map_two in Ha0. destruct Ha0 as (i1 & a2 & Ha1 & Ha2 & ->).
  rewrite (resolve_app_new dfi a "features" Hcols Hex) in Ha1.
  injection Ha1 as <-.
  rewrite (resolve_app_other dfi a "label" "features" Hcols) in Ha2 by discriminate.
  pose proof (resolve_name _ _ _ Ha2) as Hname.
  pose proof (resolve_lt _ _ _ Ha2) as Hlt.
  destruct (field_at a2 (schema dfi)) as [n tl] eqn:Hf. simpl in Hname. subst n.
  exists idx, a2, tl. injection H as <-. cbn [schema rows map].
  split; [assumption|]. split; [assumption|]. split; [exact Hf|].
  split; [assumption|]. split.
  - rewrite Hsch, field_at_app_new, field_at_app_l, Hf by assumption. reflexivity.
  - apply Forall2_map_right.
    eapply Forall2_impl; [exact Hrows|].
    intros r r' (v & Hv & ->). exists v. split; [assumption | reflexivity].
Qed.

Lemma standardize_true_inv (dv t : DataFrame) (tl : DataType)
    (sm sm' : option MinMaxScalerModel) :
  schema dv = [mkField "features" VectorUDT; mkField "label" tl] ->
  Forall (fun r : Row => exists a b, r = [a; b]) (rows dv) ->
  standardize true dv sm = Ok (t, sm') ->
  exists m vs,
    sm' = Some m /\
    vector_column dv "features" = Ok vs /\
    MinMaxScaler_fit "features" dv = Ok m /\
    schema t = [mkField "label" tl; mkField "features" VectorUDT] /\
    Forall2 (fun r r' => exists v,
               cell 0 r = VVec v /\
               r' = [cell 1 r;
                     VVec (rescale_vector (originalMin m) (originalMax m) v)])
            (rows dv) (rows t).
Proof.
  destruct dv as [sch rws]. cbn [schema rows]. intros -> Hrws H.
  unfold standardize in H.
  bind_in H as m Hfit. bind_in H as dp Hdp. bind_in H as sel Hsel.
  injection H as <- <-.
  assert (Hvs : exists vs, vector_column
            (mkDF [mkField "features" VectorUDT; mkField "label" tl] rws) "features"
            = Ok vs).
  { unfold MinMaxScaler_fit in Hfit.
    destruct (vector_column _ "features") as [vs|e]; [eauto | discriminate]. }
  destruct Hvs as [vs Hvs].
  exists m, vs. split; [reflexivity|]. split; [assumption|]. split; [assumption|].
  unfold MinMaxScalerModel_transform in Hdp. cbn in Hdp.
  bind_in Hdp as rs Hrs. injection Hdp as <-.
  unfold select in Hsel. cbn in Hsel. injection Hsel as <-.
  split; [reflexivity|].
  cbn [rows withColumnRenamed].
  apply Forall2_map_right.
  apply res_map_Forall2 in Hrs.
  clear Hvs Hfit. induction Hrs as [|r r' l l' Hr _ IH]; [constructor|].
  inversion Hrws as [|? ? (x & y & ->) Hrws']; subst.
  constructor; [|apply IH; assumption].
  unfold scale_row in Hr. bind_in Hr as v Hv.
  destruct (Nat.eqb _ _); [|discriminate]. injection Hr as <-.
  unfold vector_cell in Hv. cbn in Hv. destruct x; try discriminate.
  injection Hv as <-. eexists. split; reflexivity.
Qed.

(** ** The returned table *)

Lemma prep_inv (E : Engine) (df : DataFrame) (ins : list string) (out : string)
    (tratar padronizar : bool) (sm sm' : option MinMaxScalerModel) (t : DataFrame) :
  func_modulo_prep_dados E df ins out tratar padronizar sm = Ok (t, sm') ->
  exists novo st dfi dv,
    prep_label E df out = Ok novo /\
    res_fold (classify_step novo) ins (mkLocals [] [] None) = Ok st /\
    index_categoricals E novo st = Ok (Some dfi) /\
    vectorize st (Some dfi) = Ok dv /\
    standardize padronizar dv sm = Ok (t, sm').
Proof.
  unfold func_modulo_prep_dados. intros H.
  bind_in H as novo Hnovo. bind_in H as st Hst. bind_in H as odfi Hdfi.
  bind_in H as ign Hign. bind_in H as dv Hdv.
  destruct odfi as [dfi|]; [|discriminate].
  exists novo, st, dfi, dv. auto.
Qed.

Lemma vectorize_pairs (st : prep_locals) (dfi dv : DataFrame) :
  vectorize st (Some dfi) = Ok dv ->
  Forall (fun r : Row => exists a b, r = [a; b]) (rows dv).
Proof.
  intros H. destruct (vectorize_inv _ _ _ H) as (idx & il & tl & _ & _ & _ & _ & _ & Hr).
  induction Hr as [|r r' l l' (v & _ & ->) _ IH]; constructor; eauto.
Qed.

Lemma vector_column_In (dv : DataFrame) (c : string) (i : nat) (vs : list (list R)) :
  vector_column dv c = Ok vs ->
  resolve dv c = Ok i ->
  forall r v, In r (rows dv) -> cell i r = VVec v -> In v vs.
Proof.
  unfold vector_column. intros H Hi. rewrite Hi in H. cbn [res_bind] in H.
  destruct (dataType (field_at i (schema dv))); try discriminate.
  apply res_map_Forall2 in H.
  induction H as [|r0 v0 l l' Hr0 _ IH]; intros r v Hin Hc; [destruct Hin|].
  destruct Hin as [->|Hin].
  - unfold vector_cell in Hr0. rewrite Hc in Hr0. injection Hr0 as <-. left. reflexivity.
  - right. eapply IH; eassumption.
Qed.

(** The names of the columns of the returned table: [features] then [label]
    without standardization, [label] then [features] with it. *)
Lemma prep_columns (E : Engine) (df : DataFrame) (ins : list string) (out : string)
    (tratar padronizar : bool) (sm sm' : option MinMaxScalerModel) (t : DataFrame) :
  func_modulo_prep_dados E df ins out tratar padronizar sm = Ok (t, sm') ->
  columns t = if padronizar then ["label"; "features"] else ["features"; "label"].
Proof.
  intros H. destruct (prep_inv _ _ _ _ _ _ _ _ _ H)
    as (novo & st & dfi & dv & _ & _ & _ & Hv & Hs).
  pose proof (vectorize_pairs _ _ _ Hv) as Hpairs.
  destruct (vectorize_inv _ _ _ Hv) as (idx & il & tl & _ & _ & _ & _ & Hsch & _).
  destruct padronizar.
  - destruct (standardize_true_inv _ _ _ _ _ Hsch Hpairs Hs)
      as (m & vs & _ & _ & _ & Ht & _).
    unfold columns. rewrite Ht. reflexivity.
  - unfold standardize in Hs. injection Hs as <- <-.
    unfold columns. rewrite Hsch. reflexivity.
Qed.

(** C8: with [padronizar_dados = True] the function fits the scaler on the
    assembled vectors [dados_vetorizados], stores it in [scalerModel] and
    returns, row by row, those vectors rescaled with it: every feature of
    every row of the returned table is in the closed interval from 0 to 1. *)
Theorem scaled_features_in_unit_interval (E : Engine) (df : DataFrame)
    (variaveis_entrada : list string) (variavel_saida : string)
    (tratar_outliers : bool) (scalerModel scalerModel' : option MinMaxScalerModel)
    (dados_finais : DataFrame) :
  func_modulo_prep_dados E df variaveis_entrada variavel_saida tratar_outliers true
    scalerModel = Ok (dados_finais, scalerModel') ->
  exists dados_vetorizados m,
    columns dados_vetorizados = ["features"; "label"] /\
    MinMaxScaler_fit "features" dados_vetorizados = Ok m /\
    scalerModel' = Some m /\
    columns dados_finais = ["label"; "features"] /\
    Forall2 (fun r r' : Row =>
               exists v v',
                 cell 0 r = VVec v /\
                 v' = rescale_vector (originalMin m) (originalMax m) v /\
                 r' = [cell 1 r; VVec v'] /\
                 Forall (fun x => 0 <= x <= 1) v')
            (rows dados_vetorizados) (rows dados_finais).
Proof.
  intros H.
  pose proof (prep_columns _ _ _ _ _ _ _ _ _ H) as Hcols.
  destruct (prep_inv _ _ _ _ _ _ _ _ _ H)
    as (novo & st & dfi & dv & _ & _ & _ & Hv & Hs).
  pose proof (vectorize_pairs _ _ _ Hv) as Hpairs.
  destruct (vectorize_inv _ _ _ Hv) as (idx & il & tl & _ & _ & _ & _ & Hsch & _).
  destruct (standardize_true_inv _ _ _ _ _ Hsch Hpairs Hs)
    as (m & vs & -> & Hvs & Hfit & _ & Hrows).
  exists dv, m.
  split; [unfold columns; rewrite Hsch; reflexivity|].
  split; [assumption|]. split; [reflexivity|]. split; [assumption|].
  pose proof (fit_within _ _ _ _ Hvs Hfit) as Hin.
  assert (Hres : resolve dv "features" = Ok 0%nat).
  { unfold resolve, columns. rewrite Hsch. reflexivity. }
  pose proof (vector_column_In _ _ _ _ Hvs Hres) as Hmem.
  clear Hpairs Hs Hv Hvs Hfit Hres H Hcols.
  induction Hrows as [|r r' l l' (v & Hc & ->) _ IH]; constructor.
  - exists v, (rescale_vector (originalMin m) (originalMax m) v).
    split; [assumption|]. split; [reflexivity|]. split; [reflexivity|].
    apply rescale_vector_unit.
    rewrite List.Forall_forall in Hin. apply Hin.
    apply (Hmem r v); [left; reflexivity | assumption].
  - apply IH. intros r0 v0 Hr0. apply Hmem. right. assumption.
Qed.

(** ** A call that returns has met no string column *)

Lemma classify_fold (novo : DataFrame) (ins : list string) (st0 st : prep_locals) :
  res_fold (classify_step novo) ins st0 = Ok st ->
  variaveis_categoricas st = [] ->
  variaveis_categoricas st0 = [] /\
  variaveis_numericas st = variaveis_numericas st0 ++ ins.
Proof.
  revert st0. induction ins as [|c ins IH]; intros st0 H Hcat.
  - simpl in H. injection H as <-. rewrite app_nil_r. auto.
  - cbn [res_fold] in H. bind_in H as s1 Hs1.
    destruct (IH _ H Hcat) as [Hc1 Hn1].
    unfold classify_step in Hs1. bind_in Hs1 as f Hf.
    destruct (String.eqb (type_name (dataType f)) "StringType");
      injection Hs1 as <-; cbn [variaveis_categoricas variaveis_numericas] in *.
    + destruct (variaveis_categoricas st0); discriminate.
    + split; [assumption|]. rewrite Hn1, <- app_assoc. reflexivity.
Qed.

Lemma index_categoricals_inv (E : Engine) (novo : DataFrame) (st : prep_locals)
    (o : option DataFrame) :
  schema novo <> [] ->
  index_categoricals E novo st = Ok o ->
  variaveis_categoricas st = [] /\ o = Some novo.
Proof.
  intros Hne. unfold index_categoricals.
  destruct (variaveis_categoricas st) as [|c cs]; cbn.
  - intros [= <-]. auto.
  - unfold columns. destruct (schema novo) as [|f sch]; [congruence|].
    cbn. discriminate.
Qed.

Lemma withColumn_length (E : Engine) (c : string) (e : Column) (df t : DataFrame) :
  withColumn E c e df = Ok t ->
  (List.length (schema df) <= List.length (schema t))%nat.
Proof.
  unfold withColumn. intros H. bind_in H as ty Hty.
  destruct (existsb (String.eqb c) (columns df)); injection H as <-; cbn [schema].
  - rewrite length_map. lia.
  - rewrite length_app. lia.
Qed.

Lemma prep_label_nonempty (E : Engine) (df novo : DataFrame) (out : string) :
  prep_label E df out = Ok novo -> schema novo <> [].
Proof.
  unfold prep_label. intros H. bind_in H as f Hf.
  assert (Hne : schema (withColumnRenamed out "label" df) <> []).
  { unfold schema_getitem in Hf.
    destruct (schema (withColumnRenamed out "label" df)); [discriminate | congruence]. }
  destruct (negb _).
  - bind_in H as c Hc. apply withColumn_length in H.
    destruct (schema novo); [|congruence].
    destruct (schema (withColumnRenamed out "label" df)); [congruence|].
    simpl in H. lia.
  - injection H as <-. assumption.
Qed.

Lemma replace_cells_length (names : list string) (c : string) (v : value) (r : Row) :
  List.length (replace_cells names c v r) = List.length r.
Proof.
  revert r. induction names as [|n names IH]; intros [|x r]; simpl; auto.
Qed.

Lemma withColumn_wf (E : Engine) (c : string) (e : Column) (df t : DataFrame) :
  withColumn E c e df = Ok t -> wf_rows df -> wf_rows t.
Proof.
  unfold withColumn, wf_rows. intros H Hwf. bind_in H as ty Hty.
  destruct (existsb (String.eqb c) (columns df)); injection H as <-;
    cbn [schema rows]; apply List.Forall_map;
    (eapply List.Forall_impl; [|exact Hwf]); intros r Hr; cbn beta in *.
  - rewrite replace_cells_length, length_map. assumption.
  - rewrite !length_app. simpl. lia.
Qed.

Lemma prep_label_wf (E : Engine) (df novo : DataFrame) (out : string) :
  prep_label E df out = Ok novo -> wf_rows df -> wf_rows novo.
Proof.
  unfold prep_label. intros H Hwf. bind_in H as f Hf.
  assert (Hren : wf_rows (withColumnRenamed out "label" df)).
  { unfold wf_rows, withColumnRenamed in *. cbn [schema rows].
    rewrite length_map. assumption. }
  destruct (negb _).
  - bind_in H as c Hc. eapply withColumn_wf; eassumption.
  - injection H as <-. assumption.
Qed.

(** What a returning call has gone through: every input column is numeric
    for the script, the indexed table is the table with the prepared label,
    and the vectors are assembled from that table. *)
Lemma prep_success (E : Engine) (df : DataFrame) (ins : list string) (out : string)
    (tratar padronizar : bool) (sm sm' : option MinMaxScalerModel) (t : DataFrame) :
  func_modulo_prep_dados E df ins out tratar padronizar sm = Ok (t, sm') ->
  exists novo dv,
    prep_label E df out = Ok novo /\
    vectorize (mkLocals ins [] None) (Some novo) = Ok dv /\
    standardize padronizar dv sm = Ok (t, sm').
Proof.
  intros H. destruct (prep_inv _ _ _ _ _ _ _ _ _ H)
    as (novo & st & dfi & dv & Hnovo & Hst & Hdfi & Hv & Hs).
  pose proof (prep_label_nonempty _ _ _ _ Hnovo) as Hne.
  destruct (index_categoricals_inv _ _ _ _ Hne Hdfi) as [Hcat [= ->]].
  destruct (classify_fold _ _ _ _ Hst Hcat) as [_ Hnum].
  cbn [variaveis_numericas app] in Hnum.
  exists novo, dv. split; [assumption|]. split; [|assumption].
  unfold vectorize in *. cbn [variaveis_numericas variaveis_categoricas].
  rewrite Hnum, Hcat in Hv. exact Hv.
Qed.

(** Without standardization the features of a row are the cells of the
    input columns of the table with the prepared label, assembled as they
    are: no transformation of the outlier block reaches them. *)
Lemma prep_features_raw (E : Engine) (df : DataFrame) (ins : list string) (out : string)
    (tratar : bool) (sm sm' : option MinMaxScalerModel) (t : DataFrame) :
  wf_rows df ->
  func_modulo_prep_dados E df ins out tratar false sm = Ok (t, sm') ->
  exists novo idx il,
    prep_label E df out = Ok novo /\
    res_map (assembler_input novo) ins = Ok idx /\
    resolve novo "label" = Ok il /\
    Forall2 (fun r r' => exists v, assemble_row idx r = Ok v /\ r' = [VVec v; cell il r])
            (rows novo) (rows t).
Proof.
  intros Hwf H. destruct (prep_success _ _ _ _ _ _ _ _ _ H) as (novo & dv & Hn & Hv & Hs).
  unfold standardize in Hs. injection Hs as <- <-.
  destruct (vectorize_inv _ _ _ Hv) as (idx & il & tl & Hidx & Hil & _ & _ & _ & Hrows).
  cbn [variaveis_numericas variaveis_categoricas] in Hidx. rewrite app_nil_r in Hidx.
  exists novo, idx, il. split; [assumption|]. split; [assumption|]. split; [assumption|].
  pose proof (prep_label_wf _ _ _ _ Hn Hwf) as Hwf'.
  pose proof (resolve_lt _ _ _ Hil) as Hlt.
  unfold wf_rows in Hwf'. rewrite List.Forall_forall in Hwf'.
  assert (Hall : forall r, In r (rows novo) -> List.length r = List.length (schema novo))
    by exact Hwf'.
  clear Hwf'. induction Hrows as [|r r' l l' (v & Hv' & ->) _ IH]; constructor.
  - exists v. split; [assumption|].
    specialize (Hall r (or_introl eq_refl)).
    rewrite <- Hall, cell_app_new, cell_app_l by lia. reflexivity.
  - apply IH. intros r0 Hr0. apply Hall. right. assumption.
Qed.

(** ** Columns of moderate skewness *)

Lemma outlier_step_moderate (E : Engine) (df novo : DataFrame)
    (d : gmap string (list R)) (indexed : option DataFrame) (col : string) (s : R) :
  df_skewness E novo col = Ok (Some s) ->
  -1 <= s <= 1 ->
  outlier_step E df (Some novo) d indexed col = Ok indexed.
Proof.
  intros Hs [Hlo Hhi]. unfold outlier_step. cbn [read_local res_bind].
  rewrite Hs. cbn [res_bind py_gt py_lt].
  destruct (Rgt_dec s 1) as [Hgt|_]; [lra|].
  destruct (Rlt_dec s (-1)) as [Hlt|_]; [lra|].
  reflexivity.
Qed.

(** C9: for an input column whose skewness is strictly between -1 and 1,
    the iteration of the outlier loop for that column assigns nothing, and
    in the returned features (here without standardization) the block of
    that column is, for every row, the cell of the table that entered the
    outlier block. *)
Theorem moderate_skew_column_unchanged (E : Engine) (df : DataFrame)
    (variaveis_entrada : list string) (variavel_saida : string)
    (scalerModel scalerModel' : option MinMaxScalerModel)
    (novo_df dados_finais : DataFrame) (col : string) (k : nat) (skew : R) :
  wf_rows df ->
  prep_label E df variavel_saida = Ok novo_df ->
  nth_error variaveis_entrada k = Some col ->
  df_skewness E novo_df col = Ok (Some skew) ->
  -1 < skew < 1 ->
  func_modulo_prep_dados E df variaveis_entrada variavel_saida true false
    scalerModel = Ok (dados_finais, scalerModel') ->
  (forall d indexed,
     outlier_step E df (Some novo_df) d indexed col = Ok indexed) /\
  exists i,
    resolve novo_df col = Ok i /\
    Forall2 (fun r r' =>
               exists parts p lab,
                 r' = [VVec (concat parts); lab] /\
                 nth_error parts k = Some p /\
                 to_double (cell i r) = Ok p)
            (rows novo_df) (rows dados_finais).
Proof.
  intros Hwf Hnovo Hk Hskew Hrange H. split.
  - intros d indexed. apply (outlier_step_moderate E df novo_df d indexed col skew Hskew).
    lra.
  - destruct (prep_features_raw _ _ _ _ _ _ _ _ Hwf H)
      as (novo & idx & il & Hn & Hidx & Hil & Hrows).
    rewrite Hnovo in Hn. injection Hn as <-.
    destruct (res_map_nth _ _ _ Hidx k col Hk) as (i & Hi & Hin).
    unfold assembler_input in Hin. bind_in Hin as i' Hres.
    destruct (assemblable _); [|discriminate]. injection Hin as ->.
    exists i. split; [assumption|].
    eapply Forall2_impl; [exact Hrows|].
    intros r r' (v & Hv & ->). unfold assemble_row in Hv.
    bind_in Hv as parts Hparts. injection Hv as <-.
    destruct (res_map_nth _ _ _ Hparts k i Hi) as (p & Hp & Hd).
    exists parts, p, (cell il r). auto.
Qed.

(** ** Inputs on which the function returns *)

Lemma columns_renamed (out : string) (df : DataFrame) :
  columns (withColumnRenamed out "label" df)
  = map (fun n => if String.eqb n out then "label" else n) (columns df).
Proof.
  unfold columns, withColumnRenamed. cbn [schema]. rewrite !map_map.
  apply map_ext. intros f. unfold rename_field.
  destruct (String.eqb (name f) out); reflexivity.
Qed.

Lemma count_name_renamed (c out : string) (names : list string) :
  c <> out -> c <> "label" ->
  count_name c (map (fun n => if String.eqb n out then "label" else n) names)
  = count_name c names.
Proof.
  intros Hout Hlab. unfold count_name.
  induction names as [|n names IH]; simpl; [reflexivity|].
  destruct (String.eqb n out) eqn:Hn.
  - apply String.eqb_eq in Hn. subst n.
    apply String.eqb_neq in Hout, Hlab. rewrite Hout, Hlab. exact IH.
  - destruct (String.eqb c n); simpl; rewrite IH; reflexivity.
Qed.

Lemma existsb_renamed (c out : string) (names : list string) :
  c <> "label" ->
  existsb (String.eqb c) names = false ->
  existsb (String.eqb c)
          (map (fun n => if String.eqb n out then "label" else n) names) = false.
Proof.
  intros Hlab. induction names as [|n names IH]; simpl; [reflexivity|].
  intros H. apply orb_false_iff in H. destruct H as [Hn Hrest].
  rewrite (IH Hrest), orb_false_r.
  destruct (String.eqb n out); [apply String.eqb_neq; assumption | assumption].
Qed.

Lemma replace_cells_other (names : list string) (c : string) (v : value) (r : Row)
    (j : nat) :
  nth_error names j <> Some c ->
  cell j (replace_cells names c v r) = cell j r.
Proof.
  revert r j. induction names as [|n names IH]; intros [|x r] j Hj; simpl; auto.
  destruct j as [|j]; simpl in *.
  - destruct (String.eqb n c) eqn:Hn; [|reflexivity].
    apply String.eqb_eq in Hn. congruence.
  - apply (IH r j Hj).
Qed.

Lemma index_of_columns_typeof (df : DataFrame) (c : string) (i : nat) (t : DataType) :
  resolve df c = Ok i ->
  nth_error (schema df) i = Some (mkField c t) ->
  typeof df (Col c) = Ok t.
Proof.
  intros Hr Hn. cbn [typeof]. rewrite Hr. cbn [res_bind].
  rewrite (field_at_nth _ _ _ Hn). reflexivity.
Qed.

Lemma map2_length {A B C : Type} (f : A -> B -> C) (l : list A) (l' : list B) :
  List.length l = List.length l' -> List.length (map2 f l l') = List.length l.
Proof.
  revert l'. induction l as [|a l IH]; intros [|b l'] H; simpl in *;
    try discriminate; auto.
Qed.

Lemma summarize_fold_total (n : nat) (vs : list (list R)) (m0 : MinMaxScalerModel) :
  Forall (fun v => List.length v = n) vs ->
  List.length (originalMin m0) = n ->
  List.length (originalMax m0) = n ->
  exists m, res_fold summarize vs m0 = Ok m /\ List.length (originalMin m) = n.
Proof.
  intros Hvs. revert m0. induction Hvs as [|v vs Hv _ IH]; intros m0 Hmin Hmax.
  - exists m0. auto.
  - cbn [res_fold]. unfold summarize at 1.
    assert (Nat.eqb (List.length v) (List.length (originalMin m0)) = true) as ->
      by (apply Nat.eqb_eq; congruence).
    cbn [res_bind]. apply IH; cbn [originalMin originalMax];
      rewrite map2_length; congruence.
Qed.

Section Totality.

Variable E : Engine.
Variables df novo : DataFrame.
Variable out : string.
Variable i_out : nat.
Variable t_out : DataType.

Hypothesis Hcols : columns novo = columns (withColumnRenamed out "label" df).
Hypothesis Hother :
  forall j f, nth_error (schema df) j = Some f ->
    name f <> out -> name f <> "label" -> nth_error (schema novo) j = Some f.
Hypothesis Hrows : rows novo = map (label_row E t_out (columns novo) i_out) (rows df).

(** A ready input column keeps its position, its type and its cells in the
    table with the prepared label. *)
Lemma ready_in_novo (col : string) :
  input_ready E df out col ->
  exists i t,
    resolve novo col = Ok i /\
    resolve df col = Ok i /\
    nth_error (schema novo) i = Some (mkField col t) /\
    is_numeric t = true /\
    map (cell i) (rows novo) = map (cell i) (rows df) /\
    Forall (fun r => num_of (cell i r) <> None) (rows novo) /\
    agg_skewness E (map (cell i) (rows novo)) <> None /\
    (2 <= List.length
            (approx_quantile E (map (cell i) (rows novo)) [0.01%R; 0.99%R] 0.25%R))%nat.
Proof.
  intros (Hlab & Hout & i & t & Hn & Hc & Ht & Hnum & Hsk & Hq).
  assert (Hn' : nth_error (schema novo) i = Some (mkField col t))
    by (apply Hother; assumption).
  assert (Hcol' : nth_error (columns novo) i = Some col)
    by (unfold columns; rewrite nth_error_map, Hn'; reflexivity).
  assert (Hcol : nth_error (columns df) i = Some col)
    by (unfold columns; rewrite nth_error_map, Hn; reflexivity).
  assert (Hc' : count_name col (columns novo) = 1%nat).
  { rewrite Hcols, columns_renamed, count_name_renamed; assumption. }
  assert (Hcells : forall r, cell i (label_row E t_out (columns novo) i_out r) = cell i r).
  { intros r. unfold label_row. destruct (String.eqb _ _); [reflexivity|].
    apply replace_cells_other. rewrite Hcol'. congruence. }
  assert (Hmap : map (cell i) (rows novo) = map (cell i) (rows df)).
  { rewrite Hrows, map_map. apply map_ext. exact Hcells. }
  exists i, t.
  split; [apply resolve_unique; assumption|].
  split; [apply resolve_unique; assumption|].
  split; [assumption|]. split; [assumption|]. split; [assumption|].
  split.
  { rewrite Hrows. apply List.Forall_map.
    eapply List.Forall_impl; [|exact Hnum]. intros r Hr. cbn beta.
    rewrite Hcells. assumption. }
  rewrite Hmap. auto.
Qed.

Lemma quantile_fold_total (l : list string) (d0 : gmap string (list R)) :
  Forall (input_ready E df out) l ->
  two_quantiles d0 ->
  exists d,
    res_fold (quantile_step E (Some novo)) l d0 = Ok d /\
    two_quantiles d /\
    forall c, In c l \/ is_Some (d0 !! c) -> is_Some (d !! c).
Proof.
  intros Hl. revert d0. induction Hl as [|col l Hcol _ IH]; intros d0 Hd0.
  - exists d0. split; [reflexivity|]. split; [assumption|].
    intros c [[]|Hc]. assumption.
  - destruct (ready_in_novo col Hcol) as (i & t & Hr & _ & Hn & Ht & _ & _ & _ & Hq).
    cbn [res_fold]. unfold quantile_step at 1. cbn [read_local res_bind].
    unfold df_approxQuantile. rewrite Hr. cbn [res_bind].
    rewrite (field_at_nth _ _ _ Hn). cbn [dataType]. rewrite Ht. cbn [res_bind].
    match goal with |- context [<[col := ?q]> d0] => set (q0 := q) in * end.
    destruct (IH (<[col := q0]> d0)) as (d & Hd & Hgood & Hcov).
    { intros c q. destruct (decide (col = c)) as [<-|Hne].
      - rewrite lookup_insert_eq. intros [= <-]. exact Hq.
      - rewrite lookup_insert_ne by assumption. apply Hd0. }
    exists d. split; [assumption|]. split; [assumption|].
    intros c [[<-|Hc]|Hc]; apply Hcov.
    + right. rewrite lookup_insert_eq. eauto.
    + left. assumption.
    + right. destruct (decide (col = c)) as [<-|Hne].
      * rewrite lookup_insert_eq. eauto.
      * rewrite lookup_insert_ne by assumption. assumption.
Qed.

Lemma clip_expr_typed (col : string) (i : nat) (t : DataType) (p1 p99 : R) :
  resolve novo col = Ok i ->
  nth_error (schema novo) i = Some (mkField col t) ->
  is_numeric t = true ->
  typeof novo (when_when_otherwise (Lt (Col col) (Lit p1)) (Lit p1)
                                   (Gt (Col col) (Lit p99)) (Lit p99) (Col col))
  = Ok DoubleType.
Proof.
  intros Hr Hn Ht. unfold when_when_otherwise. cbn [typeof].
  rewrite Hr. cbn [res_bind]. rewrite (field_at_nth _ _ _ Hn). cbn [dataType].
  unfold numeric_args. rewrite Ht. reflexivity.
Qed.

Lemma withColumn_total (c : string) (e : Column) (d : DataFrame) (t : DataType) :
  typeof d e = Ok t -> exists d', withColumn E c e d = Ok d'.
Proof.
  intros Ht. unfold withColumn. rewrite Ht. cbn [res_bind].
  destruct (existsb _ _); eauto.
Qed.

Lemma outlier_step_total (d : gmap string (list R)) (indexed : option DataFrame)
    (col : string) :
  input_ready E df out col ->
  two_quantiles d ->
  is_Some (d !! col) ->
  exists o, outlier_step E df (Some novo) d indexed col = Ok o.
Proof.
  intros Hcol Hd [q Hq].
  destruct (ready_in_novo col Hcol) as (i & t & Hr & Hrdf & Hn & Ht & _ & _ & Hsk & _).
  pose proof (Hd _ _ Hq) as Hlen.
  destruct q as [|p1 [|p99 q]]; try (simpl in Hlen; lia).
  assert (Hskew : exists s, df_skewness E novo col = Ok (Some s)).
  { unfold df_skewness, df_getitem. rewrite Hr. cbn [res_bind].
    rewrite (index_of_columns_typeof _ _ _ _ Hr Hn). cbn [res_bind].
    rewrite Ht. cbn [orb].
    unfold column_index. apply resolve_ok in Hr. destruct Hr as [-> _].
    destruct (agg_skewness E _); [eauto | congruence]. }
  destruct Hskew as [s Hs].
  pose proof (clip_expr_typed col i t p1 p99 Hr Hn Ht) as Hty.
  unfold outlier_step. cbn [read_local res_bind]. rewrite Hs.
  cbn [res_bind py_gt py_lt].
  destruct (Rgt_dec s 1).
  - unfold log_clip_expr, df_getitem, dict_getitem. rewrite Hrdf, Hr, Hq.
    cbn [res_bind list_getitem nth_error].
    edestruct (withColumn_total col) as [d' ->]; [|cbn [res_bind]; eauto].
    cbn [typeof]. rewrite Hty. reflexivity.
  - destruct (Rlt_dec s (-1)); [|eauto].
    unfold exp_clip_expr, df_getitem, dict_getitem. rewrite Hrdf, Hr, Hq.
    cbn [res_bind list_getitem nth_error].
    edestruct (withColumn_total col) as [d' ->]; [|cbn [res_bind]; eauto].
    cbn [typeof]. rewrite Hty. reflexivity.
Qed.

Lemma outlier_fold_total (d : gmap string (list R)) (l : list string)
    (indexed : option DataFrame) :
  Forall (input_ready E df out) l ->
  two_quantiles d ->
  (forall c, In c l -> is_Some (d !! c)) ->
  exists o, res_fold (outlier_step E df (Some novo) d) l indexed = Ok o.
Proof.
  intros Hl Hd. revert indexed. induction Hl as [|col l Hcol _ IH]; intros indexed Hcov.
  - exists indexed. reflexivity.
  - destruct (outlier_step_total d indexed col Hcol Hd) as [o Ho].
    { apply Hcov. left. reflexivity. }
    cbn [res_fold]. rewrite Ho. cbn [res_bind]. apply IH.
    intros c Hc. apply Hcov. right. assumption.
Qed.

Lemma tratar_outliers_total (ins : list string) (cats : list string)
    (o : option DataFrame) :
  Forall (input_ready E df out) ins ->
  exists indexed,
    tratar_outliers_block E df (mkLocals ins cats o) (Some novo) = Ok indexed.
Proof.
  intros Hl. unfold tratar_outliers_block. cbn [variaveis_numericas].
  destruct (quantile_fold_total ins ∅ Hl) as (d & Hd & Hgood & Hcov).
  { intros c q. rewrite lookup_empty. discriminate. }
  rewrite Hd. cbn [res_bind].
  apply outlier_fold_total; auto.
Qed.

Lemma classify_total (l : list string) (st0 : prep_locals) :
  Forall (input_ready E df out) l ->
  exists st,
    res_fold (classify_step novo) l st0 = Ok st /\
    variaveis_numericas st = variaveis_numericas st0 ++ l /\
    variaveis_categoricas st = variaveis_categoricas st0.
Proof.
  intros Hl. revert st0. induction Hl as [|col l Hcol _ IH]; intros st0.
  - exists st0. rewrite app_nil_r. auto.
  - destruct (ready_in_novo col Hcol) as (i & t & Hr & _ & Hn & Ht & _).
    cbn [res_fold]. unfold classify_step at 1. unfold schema_getitem.
    apply resolve_ok in Hr. destruct Hr as [Hidx _].
    rewrite (find_index_of _ _ _ Hidx), Hn. cbn [res_bind dataType].
    assert (String.eqb (type_name t) "StringType" = false) as ->
      by (destruct t; try discriminate; reflexivity).
    cbn [res_bind].
    destruct (IH (mkLocals (variaveis_numericas st0 ++ [col])
                           (variaveis_categoricas st0) (Some novo)))
      as (st & Hst & Hnum & Hcat).
    exists st. split; [assumption|]. cbn [variaveis_numericas variaveis_categoricas] in *.
    split; [|assumption]. rewrite Hnum, <- app_assoc. reflexivity.
Qed.

Lemma assembler_inputs_total (l : list string) :
  Forall (input_ready E df out) l ->
  exists idx,
    res_map (assembler_input novo) l = Ok idx /\
    List.length idx = List.length l /\
    Forall (fun i => Forall (fun r => num_of (cell i r) <> None) (rows novo)) idx.
Proof.
  induction 1 as [|col l Hcol _ (idx & Hidx & Hlen & Hnum)].
  - exists []. split; [reflexivity|]. split; [reflexivity | constructor].
  - destruct (ready_in_novo col Hcol) as (i & t & Hr & _ & Hn & Ht & _ & Hcells & _).
    exists (i :: idx). cbn [res_map]. unfold assembler_input at 1.
    rewrite Hr. cbn [res_bind]. rewrite (field_at_nth _ _ _ Hn). cbn [dataType].
    assert (assemblable t = true) as -> by (destruct t; try discriminate; reflexivity).
    cbn [res_bind]. rewrite Hidx. cbn [res_bind].
    split; [reflexivity|]. split; [simpl; congruence|]. constructor; assumption.
Qed.

Lemma assemble_row_total (idx : list nat) (r : Row) :
  Forall (fun i => num_of (cell i r) <> None) idx ->
  exists v, assemble_row idx r = Ok v /\ List.length v = List.length idx.
Proof.
  unfold assemble_row. induction 1 as [|i idx Hi _ (v & Hv & Hlen)].
  - exists []. split; reflexivity.
  - bind_in Hv as parts Hparts. injection Hv as <-.
    cbn [res_map]. rewrite Hparts.
    destruct (cell i r) as [|z|x|s|b|w]; cbn in Hi; try congruence;
      cbn [to_double res_bind concat app];
      eexists; (split; [reflexivity|]); simpl; congruence.
Qed.

End Totality.

Lemma Forall_swap {A B : Type} (P : A -> B -> Prop) (l : list A) (l' : list B) :
  Forall (fun a => Forall (fun b => P a b) l') l ->
  Forall (fun b => Forall (fun a => P a b) l) l'.
Proof.
  intros H. apply List.Forall_forall. intros b Hb.
  eapply List.Forall_impl; [|exact H]. intros a Ha. cbn beta in Ha.
  rewrite List.Forall_forall in Ha. apply Ha. assumption.
Qed.

Lemma vectorize_total (novo : DataFrame) (ins : list string) (idx : list nat)
    (il : nat) (o : option DataFrame) :
  res_map (assembler_input novo) ins = Ok idx ->
  Forall (fun i => Forall (fun r => num_of (cell i r) <> None) (rows novo)) idx ->
  resolve novo "label" = Ok il ->
  existsb (String.eqb "features") (columns novo) = false ->
  exists dv, vectorize (mkLocals ins [] o) (Some novo) = Ok dv.
Proof.
  intros Hidx Hnum Hil Hex.
  unfold vectorize, VectorAssembler_transform.
  cbn [read_local res_bind variaveis_numericas variaveis_categoricas].
  rewrite app_nil_r, Hidx. cbn [res_bind]. rewrite Hex.
  destruct (res_map_total
              (fun r : Row => let* v := assemble_row idx r in Ok (r ++ [VVec v]))
              (rows novo)) as [rs Hrs].
  { apply Forall_swap in Hnum. eapply List.Forall_impl; [|exact Hnum].
    intros r Hr. cbn beta in Hr.
    destruct (assemble_row_total idx r Hr) as (v & -> & _).
    cbn [res_bind]. eauto. }
  rewrite Hrs. cbn [res_bind].
  match goal with |- context [select _ ?d] => set (t0 := d) end.
  assert (Hcols : columns t0 = columns novo ++ ["features"]).
  { unfold t0, columns. cbn [schema]. rewrite map_app. reflexivity. }
  unfold select. cbn [res_map].
  rewrite (resolve_app_new novo t0 "features" Hcols Hex). cbn [res_bind].
  rewrite (resolve_app_other novo t0 "label" "features" Hcols) by discriminate.
  rewrite Hil. cbn [res_bind]. eauto.
Qed.

Lemma vector_cells_total (n : nat) (rws : list Row) :
  Forall (fun r : Row => exists v lab, r = [VVec v; lab] /\ List.length v = n) rws ->
  exists vs,
    res_map (vector_cell 0) rws = Ok vs /\
    Forall (fun v => List.length v = n) vs /\
    List.length vs = List.length rws.
Proof.
  induction 1 as [|r rws (v & lab & -> & Hv) _ (vs & Hvs & Hlen & Hn)].
  - exists []. split; [reflexivity|]. split; [constructor | reflexivity].
  - exists (v :: vs). cbn [res_map]. unfold vector_cell at 1. cbn [cell nth res_bind].
    rewrite Hvs. cbn [res_bind].
    split; [reflexivity|]. split; [constructor; assumption | simpl; congruence].
Qed.

Lemma scale_rows_total (n : nat) (m : MinMaxScalerModel) (rws : list Row) :
  List.length (originalMin m) = n ->
  Forall (fun r : Row => exists v lab, r = [VVec v; lab] /\ List.length v = n) rws ->
  exists rs, res_map (scale_row m 0) rws = Ok rs.
Proof.
  intros Hm H. apply res_map_total. eapply List.Forall_impl; [|exact H].
  intros r (v & lab & -> & Hv). unfold scale_row, vector_cell.
  cbn [cell nth res_bind].
  assert (Nat.eqb (List.length v) (List.length (originalMin m)) = true) as ->
    by (apply Nat.eqb_eq; congruence).
  eauto.
Qed.

Lemma standardize_total (padronizar : bool) (dv : DataFrame) (tl : DataType) (n : nat)
    (sm : option MinMaxScalerModel) :
  schema dv = [mkField "features" VectorUDT; mkField "label" tl] ->
  Forall (fun r : Row => exists v lab, r = [VVec v; lab] /\ List.length v = n) (rows dv) ->
  rows dv <> [] ->
  exists t sm', standardize padronizar dv sm = Ok (t, sm').
Proof.
  destruct dv as [sch rws]. cbn [schema rows]. intros -> Hrws Hne.
  destruct padronizar; [|cbn; eauto].
  destruct (vector_cells_total n rws Hrws) as (vs & Hvs & Hlen & Hcount).
  unfold standardize, MinMaxScaler_fit.
  assert (Hvc : vector_column
            (mkDF [mkField "features" VectorUDT; mkField "label" tl] rws) "features"
            = Ok vs) by exact Hvs.
  rewrite Hvc. cbn [res_bind].
  destruct vs as [|v vs]; [destruct rws; [congruence | discriminate]|].
  inversion Hlen as [|? ? Hv Hlen']; subst.
  destruct (summarize_fold_total (List.length v) vs (mkScaler v v) Hlen' eq_refl eq_refl)
    as (m & -> & Hm).
  cbn [res_bind].
  destruct (scale_rows_total _ m rws Hm Hrws) as [rs Hrs].
  unfold MinMaxScalerModel_transform. cbn. rewrite Hrs. cbn. eauto.
Qed.

(** The function is total on ready inputs, whatever the flags. *)
Lemma prep_total (E : Engine) (df : DataFrame) (ins : list string) (out : string)
    (tratar padronizar : bool) (sm : option MinMaxScalerModel) :
  prep_ready E df ins out ->
  exists t sm', func_modulo_prep_dados E df ins out tratar padronizar sm = Ok (t, sm').
Proof.
  intros [(i & t & Hi & Ht) Hlabel Hfeat Hins Hwf Hne].
  destruct (prep_label_total E df out i t Hi Hlabel Ht)
    as (novo & Hnovo & Hcols & Hlab & Hother & Hrows).
  assert (Hil : resolve novo "label" = Ok i).
  { apply resolve_unique; [rewrite Hcols; assumption|].
    unfold columns. rewrite nth_error_map, Hlab. reflexivity. }
  assert (Hex : existsb (String.eqb "features") (columns novo) = false).
  { rewrite Hcols, columns_renamed. apply existsb_renamed; [discriminate | assumption]. }
  destruct (classify_total E df novo out i t Hcols Hother Hrows ins
              (mkLocals [] [] None) Hins) as (st & Hst & Hnum & Hcat).
  cbn [variaveis_numericas variaveis_categoricas app] in Hnum, Hcat.
  destruct st as [nums cats o]. cbn [variaveis_numericas variaveis_categoricas] in *.
  subst nums cats.
  destruct (assembler_inputs_total E df novo out i t Hcols Hother Hrows ins Hins)
    as (idx & Hidx & Hlen & Hcells).
  destruct (vectorize_total novo ins idx i o Hidx Hcells Hil Hex) as [dv Hdv].
  unfold func_modulo_prep_dados. rewrite Hnovo. cbn [res_bind]. rewrite Hst.
  cbn [res_bind]. unfold index_categoricals.
  cbn [variaveis_categoricas List.length Nat.eqb negb res_bind].
  assert (Hblock : exists x,
             (if tratar
              then tratar_outliers_block E df (mkLocals ins [] o) (Some novo)
              else Ok None) = Ok x).
  { destruct tratar; [|eauto].
    apply (tratar_outliers_total E df novo out i t Hcols Hother Hrows); assumption. }
  destruct Hblock as [x ->]. cbn [res_bind]. rewrite Hdv. cbn [res_bind].
  destruct (vectorize_inv _ _ _ Hdv) as (idx' & il & tl & Hidx' & Hil' & _ & _ & Hsch & Hr).
  cbn [variaveis_numericas variaveis_categoricas] in Hidx'.
  rewrite app_nil_r, Hidx in Hidx'. injection Hidx' as <-.
  pose proof (prep_label_wf _ _ _ _ Hnovo Hwf) as Hwf'.
  pose proof (resolve_lt _ _ _ Hil') as Hlt.
  apply (standardize_total padronizar dv tl (List.length idx) sm Hsch).
  - apply Forall_swap in Hcells. unfold wf_rows in Hwf'.
    clear Hdv Hrows. induction Hr as [|r r' l l' (v & Hv & ->) _ IH]; constructor.
    + inversion Hwf' as [|? ? Hlenr _]; subst.
      inversion Hcells as [|? ? Hnumr _]; subst.
      destruct (assemble_row_total idx r Hnumr) as (v0 & Hv0 & Hlen0).
      rewrite Hv in Hv0. injection Hv0 as <-.
      exists v, (cell il r). split; [|assumption].
      rewrite <- Hlenr, cell_app_new, cell_app_l by lia. reflexivity.
    + inversion Hwf'; inversion Hcells; subst. apply IH; assumption.
  - intros Hnil. rewrite Hnil in Hr. inversion Hr as [Hnovo_nil|]; subst.
    rewrite Hrows in Hnovo_nil. destruct (rows df); [congruence | discriminate].
Qed.

(** ** The sample tables *)

Lemma sqrt_lt_of_square (x y : R) : 0 <= x -> 0 < y -> x < y * y -> sqrt x < y.
Proof.
  intros Hx Hy H. rewrite <- (sqrt_square y) by lra.
  apply sqrt_lt_1_alt. lra.
Qed.

Lemma moment_skewness_right :
  exists s, moment_skewness [0; 0; 0; 1] = Some s /\ 1 < s.
Proof.
  unfold moment_skewness, Rsum. cbn [List.length map fold_right INR].
  replace (1 + 1 + 1 + 1) with 4 by lra.
  replace ((0 + (0 + (0 + (1 + 0)))) / 4) with (1 / 4) by lra.
  match goal with |- context [Req_dec_T ?a 0] =>
    replace a with (3 / 4) by lra end.
  destruct (Req_dec_T (3 / 4) 0) as [Heq|_]; [lra|].
  eexists. split; [reflexivity|].
  match goal with |- 1 < _ * ?m3 / _ => replace m3 with (3 / 8) by lra end.
  replace (3 / 4 * (3 / 4) * (3 / 4)) with (27 / 64) by lra.
  replace 4 with (2 * 2) by lra. rewrite sqrt_square by lra.
  assert (Hq : sqrt (27 / 64) < 3 / 4) by (apply sqrt_lt_of_square; lra).
  assert (Hp : 0 < sqrt (27 / 64)) by (apply sqrt_lt_R0; lra).
  apply (Rmult_lt_reg_r (sqrt (27 / 64))); [assumption|].
  unfold Rdiv. rewrite Rmult_assoc, Rinv_l by lra. lra.
Qed.

Lemma moment_skewness_left :
  exists s, moment_skewness [1; 1; 1; 0] = Some s /\ s < -1.
Proof.
  unfold moment_skewness, Rsum. cbn [List.length map fold_right INR].
  replace (1 + 1 + 1 + 1) with 4 by lra.
  match goal with |- context [Req_dec_T ?a 0] =>
    replace a with (3 / 4) by lra end.
  destruct (Req_dec_T (3 / 4) 0) as [Heq|_]; [lra|].
  eexists. split; [reflexivity|].
  match goal with |- _ * ?m3 / _ < _ => replace m3 with (- (3 / 8)) by lra end.
  replace (3 / 4 * (3 / 4) * (3 / 4)) with (27 / 64) by lra.
  replace 4 with (2 * 2) by lra. rewrite sqrt_square by lra.
  assert (Hq : sqrt (27 / 64) < 3 / 4) by (apply sqrt_lt_of_square; lra).
  assert (Hp : 0 < sqrt (27 / 64)) by (apply sqrt_lt_R0; lra).
  apply (Rmult_lt_reg_r (sqrt (27 / 64))); [assumption|].
  unfold Rdiv. rewrite Rmult_assoc, Rinv_l by lra. lra.
Qed.

Lemma moment_skewness_pair (a b : R) :
  a <> b -> moment_skewness [a; b] <> None.
Proof.
  intros Hab. unfold moment_skewness, Rsum. cbn [List.length map fold_right INR].
  match goal with |- context [Req_dec_T ?m 0] =>
    destruct (Req_dec_T m 0) as [Heq|_]; [|discriminate] end.
  exfalso. replace (1 + 1) with 2 in Heq by lra.
  assert (H : (a - b) * (a - b) = 0) by lra.
  apply Rmult_integral in H. lra.
Qed.

Lemma moment_skewness_balanced : moment_skewness [0; 1] = Some 0.
Proof.
  unfold moment_skewness, Rsum. cbn [List.length map fold_right INR].
  match goal with |- context [Req_dec_T ?m 0] =>
    destruct (Req_dec_T m 0) as [Heq|_]; [exfalso; lra|] end.
  f_equal.
  match goal with |- _ * ?m3 / _ = _ => replace m3 with 0 by lra end.
  unfold Rdiv. rewrite Rmult_0_r, Rmult_0_l. reflexivity.
Qed.

Ltac ready_column i t :=
  split; [discriminate|]; split; [discriminate|];
  exists i, t;
  split; [reflexivity|]; split; [reflexivity|]; split; [reflexivity|];
  split; [repeat constructor; discriminate|].

Lemma right_tailed_ready : prep_ready sample_engine right_tailed ["x"] "y".
Proof.
  constructor.
  - exists 1%nat, DoubleType. split; [reflexivity | discriminate].
  - reflexivity.
  - reflexivity.
  - constructor; [|constructor]. ready_column 0%nat DoubleType. split.
    + destruct moment_skewness_right as (s & Hs & _).
      change (moment_skewness [0; 0; 0; 1] <> None). congruence.
    + cbn. lia.
  - repeat constructor.
  - discriminate.
Qed.

Lemma left_tailed_ready : prep_ready sample_engine left_tailed ["x"] "y".
Proof.
  constructor.
  - exists 1%nat, DoubleType. split; [reflexivity | discriminate].
  - reflexivity.
  - reflexivity.
  - constructor; [|constructor]. ready_column 0%nat DoubleType. split.
    + destruct moment_skewness_left as (s & Hs & _).
      change (moment_skewness [1; 1; 1; 0] <> None). congruence.
    + cbn. lia.
  - repeat constructor.
  - discriminate.
Qed.

Lemma balanced_ready : prep_ready sample_engine balanced ["x"] "y".
Proof.
  constructor.
  - exists 1%nat, DoubleType. split; [reflexivity | discriminate].
  - reflexivity.
  - reflexivity.
  - constructor; [|constructor]. ready_column 0%nat DoubleType. split.
    + change (moment_skewness [0; 1] <> None). rewrite moment_skewness_balanced.
      discriminate.
    + cbn. lia.
  - repeat constructor.
  - discriminate.
Qed.

Lemma res_map_map_ok {A B C : Type} (f : B -> res C) (g : A -> B) (h : A -> C)
    (l : list A) :
  (forall a, f (g a) = Ok (h a)) -> res_map f (map g l) = Ok (map h l).
Proof.
  intros H. induction l as [|a l IH]; cbn [map res_map]; [reflexivity|].
  rewrite H, IH. reflexivity.
Qed.

Lemma sample_run (df : DataFrame) (data : list (R * R)) (tratar : bool) :
  prep_ready sample_engine df ["x"] "y" ->
  schema df = [mkField "x" DoubleType; mkField "y" DoubleType] ->
  rows df = map (fun p => [VNum (fst p); VNum (snd p)]) data ->
  func_modulo_prep_dados sample_engine df ["x"] "y" tratar false None
  = Ok (prepared data, None).
Proof.
  intros Hready Hsch Hrows.
  destruct (prep_total sample_engine df ["x"] "y" tratar false None Hready)
    as (t & sm' & H).
  rewrite H. destruct (prep_success _ _ _ _ _ _ _ _ _ H) as (novo & dv & Hn & Hv & Hs).
  destruct df as [sch rws]. cbn [schema rows] in Hsch, Hrows. subst sch rws.
  unfold standardize in Hs. injection Hs as <- <-.
  assert (Hn0 : prep_label sample_engine
            (mkDF [mkField "x" DoubleType; mkField "y" DoubleType]
                  (map (fun p => [VNum (fst p); VNum (snd p)]) data)) "y"
          = Ok (mkDF [mkField "x" DoubleType; mkField "label" FloatType]
                     (map (fun p => [VNum (fst p); VNum (snd p)]) data))).
  { unfold prep_label. cbn. rewrite map_map. reflexivity. }
  rewrite Hn0 in Hn. injection Hn as <-.
  unfold vectorize, VectorAssembler_transform, select in Hv. cbn in Hv.
  rewrite (res_map_map_ok _ _ (fun p : R * R => [VNum (fst p); VNum (snd p); VVec [fst p]]))
    in Hv by reflexivity.
  cbn in Hv. rewrite map_map in Hv. cbn in Hv. injection Hv as <-.
  reflexivity.
Qed.

(** ** The skewed columns of the sample tables *)

Lemma sample_quantiles_right :
  approx_quantile sample_engine (map (cell 0) (rows right_tailed)) [0.01; 0.99] 0.25
  = [0; 1].
Proof.
  cbn. destruct (Rlt_dec 0.01 (1 / 2)) as [_|H]; [|exfalso; lra].
  destruct (Rlt_dec 0.99 (1 / 2)) as [H|_]; [exfalso; lra|].
  repeat match goal with
         | |- context [Rmin ?a ?b] =>
             first [rewrite (Rmin_left a b) by lra | rewrite (Rmin_right a b) by lra]
         | |- context [Rmax ?a ?b] =>
             first [rewrite (Rmax_left a b) by lra | rewrite (Rmax_right a b) by lra]
         end.
  reflexivity.
Qed.

Lemma sample_quantiles_left :
  approx_quantile sample_engine (map (cell 0) (rows left_tailed)) [0.01; 0.99] 0.25
  = [0; 1].
Proof.
  cbn. destruct (Rlt_dec 0.01 (1 / 2)) as [_|H]; [|exfalso; lra].
  destruct (Rlt_dec 0.99 (1 / 2)) as [H|_]; [exfalso; lra|].
  repeat match goal with
         | |- context [Rmin ?a ?b] =>
             first [rewrite (Rmin_left a b) by lra | rewrite (Rmin_right a b) by lra]
         | |- context [Rmax ?a ?b] =>
             first [rewrite (Rmax_left a b) by lra | rewrite (Rmax_right a b) by lra]
         end.
  reflexivity.
Qed.

Lemma ln_2_lt_1 : ln 2 < 1.
Proof.
  pose proof (exp_ineq1 1 ltac:(lra)) as H.
  pose proof (ln_increasing 2 (exp 1) ltac:(lra) ltac:(lra)) as H'.
  rewrite ln_exp in H'. exact H'.
Qed.

Lemma clip_inside (x p1 p99 : R) : p1 <= x <= p99 -> clip x p1 p99 = x.
Proof.
  intros [H1 H2]. unfold clip.
  destruct (Rlt_dec x p1); [lra|]. destruct (Rgt_dec x p99); [lra|]. reflexivity.
Qed.

(** C1 (at a column of skewness above 1): on the table [right_tailed] the
    skewness of the input column [x] is above 1 and the quantiles are 0 and
    1; the returned features are the cells of [x] as they are, 0, 0, 0 and
    1, and not [log(clip(x, p1, p99) + 1)], which is [ln 2] in the last
    row. *)
Theorem positive_skew_features_untransformed :
  let data := [(0, 10); (0, 20); (0, 30); (1, 40)] in
  exists s,
    agg_skewness sample_engine (map (cell 0) (rows right_tailed)) = Some s /\
    1 < s /\
    approx_quantile sample_engine (map (cell 0) (rows right_tailed)) [0.01; 0.99] 0.25
      = [0; 1] /\
    func_modulo_prep_dados sample_engine right_tailed ["x"] "y" true false None
      = Ok (prepared data, None) /\
    map (fun p => spec_log_clip 0 1 (fst p)) data <> map fst data.
Proof.
  intros data. destruct moment_skewness_right as (s & Hs & Hgt).
  exists s. split; [exact Hs|]. split; [exact Hgt|].
  split; [exact sample_quantiles_right|].
  split; [apply sample_run; [exact right_tailed_ready | reflexivity | reflexivity]|].
  unfold data. cbn [map fst]. unfold spec_log_clip.
  rewrite !clip_inside by lra.
  intros H. injection H as _ _ _ H.
  replace (1 + 1) with 2 in H by lra.
  pose proof ln_2_lt_1. lra.
Qed.

(** C2 (at a column of skewness below -1): on the table [left_tailed] the
    skewness of the input column [x] is below -1 and the quantiles are 0
    and 1; the returned features are the cells of [x] as they are, 1, 1, 1
    and 0, and not [exp(clip(x, p1, p99))], which is 1 in the last row. *)
Theorem negative_skew_features_untransformed :
  let data := [(1, 10); (1, 20); (1, 30); (0, 40)] in
  exists s,
    agg_skewness sample_engine (map (cell 0) (rows left_tailed)) = Some s /\
    s < -1 /\
    approx_quantile sample_engine (map (cell 0) (rows left_tailed)) [0.01; 0.99] 0.25
      = [0; 1] /\
    func_modulo_prep_dados sample_engine left_tailed ["x"] "y" true false None
      = Ok (prepared data, None) /\
    map (fun p => spec_exp_clip 0 1 (fst p)) data <> map fst data.
Proof.
  intros data. destruct moment_skewness_left as (s & Hs & Hlt).
  exists s. split; [exact Hs|]. split; [exact Hlt|].
  split; [exact sample_quantiles_left|].
  split; [apply sample_run; [exact left_tailed_ready | reflexivity | reflexivity]|].
  unfold data. cbn [map fst]. unfold spec_exp_clip.
  rewrite !clip_inside by lra.
  intros H. injection H as _ _ _ H.
  rewrite exp_0 in H. lra.
Qed.

(** ** The columns of the returned table *)

(** C10: for every input and whatever the two flags, a table the function
    returns has exactly two columns, called [label] and [features]:
    [features] then [label] without standardization, [label] then
    [features] with it; and on every ready input the function does return
    a table. *)
Theorem prep_returns_label_and_features (E : Engine) (df : DataFrame)
    (variaveis_entrada : list string) (variavel_saida : string)
    (tratar_outliers padronizar_dados : bool)
    (scalerModel : option MinMaxScalerModel) :
  (forall dados_finais scalerModel',
     func_modulo_prep_dados E df variaveis_entrada variavel_saida tratar_outliers
       padronizar_dados scalerModel = Ok (dados_finais, scalerModel') ->
     List.length (schema dados_finais) = 2%nat /\
     columns dados_finais =
       if padronizar_dados then ["label"; "features"] else ["features"; "label"]) /\
  (prep_ready E df variaveis_entrada variavel_saida ->
   exists dados_finais scalerModel',
     func_modulo_prep_dados E df variaveis_entrada variavel_saida tratar_outliers
       padronizar_dados scalerModel = Ok (dados_finais, scalerModel')).
Proof.
  split.
  - intros t sm' H.
    pose proof (prep_columns _ _ _ _ _ _ _ _ _ H) as Hc.
    split; [|exact Hc].
    unfold columns in Hc. apply (f_equal (@List.length string)) in Hc.
    rewrite length_map in Hc. rewrite Hc. destruct padronizar_dados; reflexivity.
  - apply prep_total.
Qed.

Lemma prep_returns_label_and_features_witness :
  prep_ready sample_engine right_tailed ["x"] "y" /\
  exists dados_finais scalerModel',
    func_modulo_prep_dados sample_engine right_tailed ["x"] "y" true true None
      = Ok (dados_finais, scalerModel') /\
    List.length (schema dados_finais) = 2%nat /\
    columns dados_finais = ["label"; "features"].
Proof.
  split; [exact right_tailed_ready|].
  destruct (prep_returns_label_and_features sample_engine right_tailed ["x"] "y"
              true true None) as [Hshape Hreturns].
  destruct (Hreturns right_tailed_ready) as (t & sm' & H).
  exists t, sm'. split; [exact H|]. exact (Hshape t sm' H).
Defined.

(** ** The outlier block has no effect on the returned table *)

(** C3: for every input, whenever the call with [tratar_outliers = True]
    returns a table, the call with [tratar_outliers = False] (same
    [padronizar_dados]) returns the same table, row for row and column for
    column, and leaves the same [scalerModel]: what the outlier block
    computes is bound to [indexed], which nothing reads.  On every ready
    input both calls return. *)
Theorem tratar_outliers_same_table (E : Engine) (df : DataFrame)
    (variaveis_entrada : list string) (variavel_saida : string)
    (padronizar_dados : bool) (scalerModel : option MinMaxScalerModel) :
  (forall out,
     func_modulo_prep_dados E df variaveis_entrada variavel_saida true
       padronizar_dados scalerModel = Ok out ->
     func_modulo_prep_dados E df variaveis_entrada variavel_saida false
       padronizar_dados scalerModel = Ok out) /\
  (prep_ready E df variaveis_entrada variavel_saida ->
   exists out,
     func_modulo_prep_dados E df variaveis_entrada variavel_saida true
       padronizar_dados scalerModel = Ok out /\
     func_modulo_prep_dados E df variaveis_entrada variavel_saida false
       padronizar_dados scalerModel = Ok out).
Proof.
  assert (Hsame : forall out,
    func_modulo_prep_dados E df variaveis_entrada variavel_saida true
      padronizar_dados scalerModel = Ok out ->
    func_modulo_prep_dados E df variaveis_entrada variavel_saida false
      padronizar_dados scalerModel = Ok out).
  { unfold func_modulo_prep_dados. intros out H.
    bind_in H as novo Hnovo. rewrite Hnovo. cbn [res_bind].
    bind_in H as st Hst. rewrite Hst. cbn [res_bind].
    bind_in H as dfi Hdfi. rewrite Hdfi. cbn [res_bind].
    bind_in H as indexed Hindexed. exact H. }
  split; [exact Hsame|].
  intros Hready.
  destruct (prep_total E df variaveis_entrada variavel_saida true padronizar_dados
              scalerModel Hready) as (t & sm' & H).
  exists (t, sm'). split; [exact H | exact (Hsame _ H)].
Qed.

Lemma tratar_outliers_same_table_witness :
  let out := (prepared [(0, 10); (0, 20); (0, 30); (1, 40)], None) in
  func_modulo_prep_dados sample_engine right_tailed ["x"] "y" true false None = Ok out /\
  func_modulo_prep_dados sample_engine right_tailed ["x"] "y" false false None = Ok out.
Proof.
  intros out.
  assert (H : func_modulo_prep_dados sample_engine right_tailed ["x"] "y" true false None
              = Ok out)
    by (apply sample_run; [exact right_tailed_ready | reflexivity | reflexivity]).
  split; [exact H|].
  exact (proj1 (tratar_outliers_same_table sample_engine right_tailed ["x"] "y" false
                  None) out H).
Defined.

Lemma prep_label_renames_and_casts_witness :
  nth_error (schema right_tailed) 1 = Some (mkField "y" DoubleType) /\
  exists novo_df t',
    prep_label sample_engine right_tailed "y" = Ok novo_df /\
    columns novo_df = columns (withColumnRenamed "y" "label" right_tailed) /\
    nth_error (schema novo_df) 1 = Some (mkField "label" t') /\
    (is_numeric DoubleType = false ->
       t' = FloatType /\
       rows novo_df =
         map (fun r => replace_cells (columns novo_df) "label"
                         (cast_to_float sample_engine (cell 1 r)) r)
             (rows right_tailed)) /\
    (is_numeric DoubleType = true -> is_numeric t' = true).
Proof.
  split; [reflexivity|].
  apply (prep_label_renames_and_casts sample_engine right_tailed "y" 1 DoubleType).
  - reflexivity.
  - reflexivity.
  - discriminate.
Defined.

Lemma scaled_features_in_unit_interval_witness :
  exists dados_finais scalerModel',
    func_modulo_prep_dados sample_engine right_tailed ["x"] "y" true true None
      = Ok (dados_finais, scalerModel') /\
    exists dados_vetorizados m,
      columns dados_vetorizados = ["features"; "label"] /\
      MinMaxScaler_fit "features" dados_vetorizados = Ok m /\
      scalerModel' = Some m /\
      columns dados_finais = ["label"; "features"] /\
      Forall2 (fun r r' : Row =>
                 exists v v',
                   cell 0 r = VVec v /\
                   v' = rescale_vector (originalMin m) (originalMax m) v /\
                   r' = [cell 1 r; VVec v'] /\
                   Forall (fun x => 0 <= x <= 1) v')
              (rows dados_vetorizados) (rows dados_finais).
Proof.
  destruct (prep_total sample_engine right_tailed ["x"] "y" true true None
              right_tailed_ready) as (t & sm' & H).
  exists t, sm'. split; [exact H|].
  exact (scaled_features_in_unit_interval sample_engine right_tailed ["x"] "y"
           true None sm' t H).
Defined.

Lemma balanced_skewness :
  df_skewness sample_engine
    (mkDF [mkField "x" DoubleType; mkField "label" FloatType]
          [[VNum 0; VNum 10]; [VNum 1; VNum 20]]) "x" = Ok (Some 0).
Proof.
  unfold df_skewness, df_getitem. cbn.
  change (Ok (moment_skewness [0; 1]) = Ok (Some 0)).
  rewrite moment_skewness_balanced. reflexivity.
Qed.

Lemma moderate_skew_column_unchanged_witness :
  let novo := mkDF [mkField "x" DoubleType; mkField "label" FloatType]
                   [[VNum 0; VNum 10]; [VNum 1; VNum 20]] in
  (forall d indexed,
     outlier_step sample_engine balanced (Some novo) d indexed "x" = Ok indexed) /\
  exists i,
    resolve novo "x" = Ok i /\
    Forall2 (fun r r' =>
               exists parts p lab,
                 r' = [VVec (concat parts); lab] /\
                 nth_error parts 0 = Some p /\
                 to_double (cell i r) = Ok p)
            (rows novo) (rows (prepared [(0, 10); (1, 20)])).
Proof.
  intros novo.
  apply (moderate_skew_column_unchanged sample_engine balanced ["x"] "y" None None
           novo (prepared [(0, 10); (1, 20)]) "x" 0 0).
  - repeat constructor.
  - reflexivity.
  - reflexivity.
  - exact balanced_skewness.
  - lra.
  - apply sample_run; [exact balanced_ready | reflexivity | reflexivity].
Defined.

(** ** The new record and the training rows *)

Ltac ready_pair i t :=
  ready_column i t;
  split;
  [ cbn; apply moment_skewness_pair; lra
  | cbn; lia ].

Lemma dados_amostra_ready :
  prep_ready sample_engine dados_amostra lista_atributos "csMPa".
Proof.
  constructor.
  - exists 8%nat, DoubleType. split; [reflexivity | discriminate].
  - reflexivity.
  - reflexivity.
  - unfold lista_atributos. repeat apply List.Forall_cons; try apply List.Forall_nil.
    + ready_pair 0%nat DoubleType.
    + ready_pair 1%nat DoubleType.
    + ready_pair 2%nat DoubleType.
    + ready_pair 3%nat DoubleType.
    + ready_pair 4%nat DoubleType.
    + ready_pair 5%nat DoubleType.
    + ready_pair 6%nat DoubleType.
    + ready_pair 7%nat IntegerType.
  - repeat constructor.
  - discriminate.
Qed.

Lemma ln_28 : ln 28 + 1 < 28.
Proof.
  pose proof (exp_ineq1 27 ltac:(lra)) as H.
  pose proof (ln_increasing 28 (exp 27) ltac:(lra) ltac:(lra)) as H'.
  rewrite ln_exp in H'. lra.
Qed.

(** C4: the vector assembled for the new record has [ln 28 + 1] in the
    position of [age]; the training row with the same values, prepared by
    [func_modulo_prep_dados] with the treatment of outliers, has 28 there.
    The two vectors, which the same scaler then receives, differ. *)
Theorem novos_dados_age_differs_from_training :
  let novo := [540; 0; 0; 162; 2.5; 1040; 676; ln 28 + 1] in
  let treino := [540; 0; 0; 162; 2.5; 1040; 676; 28] in
  novos_dados_features sample_engine (columns dados_amostra)
    = Ok (mkDF [mkField "features" VectorUDT] [[VVec novo]]) /\
  (exists linha,
     func_modulo_prep_dados sample_engine dados_amostra lista_atributos "csMPa"
       true false None
     = Ok (mkDF [mkField "features" VectorUDT; mkField "label" FloatType]
                [[VVec treino; VNum 79.99]; linha], None)) /\
  novo <> treino.
Proof.
  intros novo treino. split; [|split].
  - unfold novos_dados_features. cbn.
    destruct (Rlt_dec 0 28) as [_|H]; [|exfalso; lra]. reflexivity.
  - destruct (prep_total sample_engine dados_amostra lista_atributos "csMPa"
                true false None dados_amostra_ready) as (t & sm' & H).
    rewrite H.
    destruct (prep_success _ _ _ _ _ _ _ _ _ H) as (nv & dv & Hn & Hv & Hs).
    unfold standardize in Hs. injection Hs as <- <-.
    cbn in Hn. injection Hn as <-.
    cbn in Hv. injection Hv as <-.
    eexists. reflexivity.
  - unfold novo, treino. intros H. injection H as H.
    pose proof ln_28. lra.
Qed.

(** ** String columns *)

(** When an input column is of string type the function raises: the loop
    that should index the string columns iterates over the table itself,
    and the schema is then indexed with a [Column] object. *)
Lemma string_column_raises (E : Engine) (df novo : DataFrame) (ins : list string)
    (out : string) (tratar padronizar : bool) (sm : option MinMaxScalerModel)
    (st : prep_locals) :
  prep_label E df out = Ok novo ->
  res_fold (classify_step novo) ins (mkLocals [] [] None) = Ok st ->
  variaveis_categoricas st <> [] ->
  func_modulo_prep_dados E df ins out tratar padronizar sm = Err TypeError.
Proof.
  intros Hn Hst Hcat. unfold func_modulo_prep_dados.
  rewrite Hn. cbn [res_bind]. rewrite Hst. cbn [res_bind].
  pose proof (prep_label_nonempty _ _ _ _ Hn) as Hne.
  unfold index_categoricals.
  destruct (variaveis_categoricas st) as [|c cs]; [congruence|].
  cbn [List.length Nat.eqb negb]. unfold columns.
  destruct (schema novo) as [|f sch]; [congruence|].
  reflexivity.
Qed.

(** ** Model selection: every branch, every list of regressors *)

Section ModelSelectionMore.

Variable E : Engine.
Variable L : MLlib.
Variables dados_treino dados_teste : DataFrame.

Lemma Regressor_eq_dec (a b : Regressor) : {a = b} + {a <> b}.
Proof. decide equality. Qed.

(** X1: called as the training loop calls it, with the global [regressor]
    holding its argument, each of the four branches other than linear
    regression returns one row of three columns: the name of the class and
    the two metrics of the test split, cut to five characters, in the
    columns [Resultado_RMSE] and [Resultado_R2] themselves.  Called before
    [regressor] is assigned, it raises [NameError]. *)
Theorem other_branches_row (a : Regressor) (lr dt rf gbt iso : option (Model L)) :
  a <> LinearRegression ->
  (exists g',
     func_modulo_ml E L dados_treino dados_teste
       (mkGlobals (Some a) lr dt rf gbt iso) a
     = Ok (mkDF schema_resultado [summary_row L dados_treino dados_teste a], g')) /\
  func_modulo_ml E L dados_treino dados_teste (mkGlobals None lr dt rf gbt iso) a
  = Err NameError.
Proof.
  intros Ha. split.
  - destruct a; try congruence; cbn; eexists; reflexivity.
  - destruct a; reflexivity.
Qed.

(** X2: every branch, linear regression included, stores the model that
    cross-validation selects (three folds, the grid of the family, RMSE) in
    the global of its own family and leaves the globals of the other
    families as they are: the substring tests on the class name single out
    one family. *)
Theorem best_model_stored_in_own_family (a : Regressor)
    (lr dt rf gbt iso : option (Model L)) :
  let g := mkGlobals (Some a) lr dt rf gbt iso in
  exists t g',
    func_modulo_ml E L dados_treino dados_teste g a = Ok (t, g') /\
    regressor g' = Some a /\
    family_global a g' =
      Some (crossval_best L a (family_grid a) rmse_metric 3 dados_treino) /\
    forall b, b <> a -> family_global b g' = family_global b g.
Proof.
  intros g. destruct a; cbn; eexists; eexists;
    (split; [reflexivity|]); (split; [reflexivity|]); (split; [reflexivity|]);
    intros b Hb; destruct b; try congruence; reflexivity.
Qed.

Lemma training_step_other (acc : DataFrame) (g : ml_globals L) (a : Regressor) :
  a <> LinearRegression ->
  List.length (schema acc) = 3%nat ->
  exists g',
    training_step E L dados_treino dados_teste (acc, g) a
    = Ok (mkDF (schema acc)
               (rows acc ++ [summary_row L dados_treino dados_teste a]), g').
Proof.
  intros Ha Hlen. unfold training_step. cbn [fst snd].
  destruct a; try congruence; cbn; unfold union; cbn [schema rows List.length];
    rewrite Hlen; cbn; eexists; reflexivity.
Qed.

Lemma training_step_linear (acc : DataFrame) (g : ml_globals L) :
  List.length (schema acc) = 3%nat ->
  training_step E L dados_treino dados_teste (acc, g) LinearRegression
  = Err AnalysisException.
Proof.
  intros Hlen. unfold training_step. cbn. unfold union. cbn [schema List.length].
  rewrite Hlen. reflexivity.
Qed.

Lemma training_fold_linear (rs : list Regressor) (acc : DataFrame) (g : ml_globals L) :
  In LinearRegression rs ->
  List.length (schema acc) = 3%nat ->
  res_fold (training_step E L dados_treino dados_teste) rs (acc, g)
  = Err AnalysisException.
Proof.
  revert acc g. induction rs as [|a rs IH]; intros acc g Hin Hlen; [destruct Hin|].
  cbn [res_fold].
  destruct (Regressor_eq_dec a LinearRegression) as [->|Ha].
  - rewrite training_step_linear by assumption. reflexivity.
  - destruct (training_step_other acc g a Ha Hlen) as [g' ->]. cbn [res_bind].
    apply IH; [|exact Hlen].
    destruct Hin as [Heq|Hin]; [congruence | assumption].
Qed.

Lemma training_fold_others (rs : list Regressor) (acc : DataFrame) (g : ml_globals L) :
  ~ In LinearRegression rs ->
  List.length (schema acc) = 3%nat ->
  exists g',
    res_fold (training_step E L dados_treino dados_teste) rs (acc, g)
    = Ok (mkDF (schema acc)
               (rows acc ++ map (fun a => summary_row L dados_treino dados_teste a) rs),
          g').
Proof.
  revert acc g. induction rs as [|a rs IH]; intros acc g Hin Hlen.
  - exists g. cbn. rewrite app_nil_r. destruct acc. reflexivity.
  - cbn [res_fold].
    assert (Ha : a <> LinearRegression) by (intros ->; apply Hin; left; reflexivity).
    destruct (training_step_other acc g a Ha Hlen) as [g' ->]. cbn [res_bind].
    destruct (IH (mkDF (schema acc)
                       (rows acc ++ [summary_row L dados_treino dados_teste a])) g')
      as [g'' Hg''].
    { intros H. apply Hin. right. assumption. }
    { exact Hlen. }
    exists g''. rewrite Hg''. cbn [schema rows map]. rewrite <- app_assoc. reflexivity.
Qed.

(** X3: a list of regressors in which linear regression occurs makes the
    training loop raise, wherever it occurs: the union of its five-column
    table with the summary table is refused. *)
Theorem training_with_linear_raises (rs : list Regressor) (g : ml_globals L) :
  In LinearRegression rs ->
  run_training E L dados_treino dados_teste rs g = Err AnalysisException.
Proof.
  intros Hin. unfold run_training.
  rewrite (training_fold_linear rs _ g Hin) by reflexivity. reflexivity.
Qed.

(** X4: on a list of regressors without linear regression the training loop
    completes, and the summary table holds one row per regressor, in the
    order of the list, and no placeholder row. *)
Theorem training_without_linear (rs : list Regressor) (g : ml_globals L) :
  ~ In LinearRegression rs ->
  exists g',
    run_training E L dados_treino dados_teste rs g
    = Ok (mkDF schema_resultado
               (map (fun a => summary_row L dados_treino dados_teste a) rs), g').
Proof.
  intros Hin. unfold run_training.
  destruct (training_fold_others rs (df_resultados_treinamento) g Hin eq_refl)
    as [g' ->].
  cbn [res_bind fst snd]. exists g'.
  unfold where_ne. cbn [res_bind schema rows]. 
  assert (Hres : resolve
            (mkDF (schema df_resultados_treinamento)
                  (rows df_resultados_treinamento ++
                   map (fun a => summary_row L dados_treino dados_teste a) rs))
            "Regressor" = Ok 0%nat) by reflexivity.
  rewrite Hres. cbn [res_bind]. f_equal. f_equal. f_equal.
  cbn [df_resultados_treinamento createDataFrame rows app List.filter cell nth].
  cbn. clear. induction rs as [|a rs IH]; [reflexivity|].
  cbn [map List.filter]. 
  assert (Hkeep : match cell 0 (summary_row L dados_treino dados_teste a) with
                  | VStr x => negb (String.eqb x "N/A")
                  | _ => false
                  end = true) by (destruct a; reflexivity).
  rewrite Hkeep. f_equal. exact IH.
Qed.

End ModelSelectionMore.

(** ** Data preparation: the columns the call names *)

Lemma res_fold_app {S A : Type} (f : S -> A -> res S) (l1 l2 : list A) (s : S) :
  res_fold f (l1 ++ l2) s = let* s' := res_fold f l1 s in res_fold f l2 s'.
Proof.
  revert s. induction l1 as [|a l1 IH]; intros s; cbn [app res_fold res_bind];
    [reflexivity|].
  destruct (f s a); cbn [res_bind]; [apply IH | reflexivity].
Qed.

Lemma find_name_none (c : string) (sch : list StructField) :
  index_of c (map name sch) = None ->
  List.find (fun f => String.eqb (name f) c) sch = None.
Proof.
  induction sch as [|f sch IH]; cbn; [reflexivity|].
  destruct (String.eqb (name f) c); [discriminate|].
  destruct (index_of c (map name sch)); cbn; [discriminate | auto].
Qed.

Lemma index_of_In (c : string) (l : list string) :
  In c l -> exists i, index_of c l = Some i.
Proof.
  induction l as [|x l IH]; intros Hin; [destruct Hin|]. cbn.
  destruct (String.eqb x c) eqn:Hx; [eauto|].
  destruct Hin as [->|Hin]; [rewrite String.eqb_refl in Hx; discriminate|].
  destruct (IH Hin) as [i ->]. cbn. eauto.
Qed.

Lemma index_of_not_In (c : string) (l : list string) :
  ~ In c l -> index_of c l = None.
Proof.
  intros Hn. destruct (index_of c l) as [i|] eqn:Hi; [|reflexivity].
  exfalso. apply Hn. apply index_of_nth in Hi. eapply nth_error_In. eassumption.
Qed.

Lemma schema_getitem_In (df : DataFrame) (c : string) :
  In c (columns df) -> exists f, schema_getitem (schema df) (KeyStr c) = Ok f.
Proof.
  intros Hin. destruct (index_of_In _ _ Hin) as [i Hi]. cbn [schema_getitem].
  rewrite (find_index_of _ _ _ Hi).
  apply index_of_lt in Hi. unfold columns in Hi. rewrite length_map in Hi.
  destruct (nth_error (schema df) i) eqn:Hn; [eauto|].
  apply nth_error_None in Hn. lia.
Qed.

Lemma schema_getitem_not_In (df : DataFrame) (c : string) :
  ~ In c (columns df) -> schema_getitem (schema df) (KeyStr c) = Err KeyError.
Proof.
  intros Hn. cbn [schema_getitem].
  rewrite find_name_none; [reflexivity|]. apply index_of_not_In. exact Hn.
Qed.

Lemma classify_present (novo : DataFrame) (l : list string) (st0 : prep_locals) :
  Forall (fun c => In c (columns novo)) l ->
  exists st,
    res_fold (classify_step novo) l st0 = Ok st /\
    (variaveis_categoricas st0 <> [] -> variaveis_categoricas st <> []) /\
    (Exists (string_typed novo) l -> variaveis_categoricas st <> []).
Proof.
  intros Hl. revert st0. induction Hl as [|c l Hc _ IH]; intros st0.
  - exists st0. split; [reflexivity|]. split; [auto|]. intros H. inversion H.
  - destruct (schema_getitem_In _ _ Hc) as [f Hf].
    cbn [res_fold]. unfold classify_step at 1. rewrite Hf. cbn [res_bind].
    destruct (String.eqb (type_name (dataType f)) "StringType") eqn:Hs; cbn [res_bind].
    + edestruct IH as (st & -> & Hkeep & _). exists st. split; [reflexivity|].
      assert (Hne : variaveis_categoricas st <> []).
      { apply Hkeep. cbn. destruct (variaveis_categoricas st0); discriminate. }
      auto.
    + edestruct IH as (st & -> & Hkeep & Hex). exists st. split; [reflexivity|].
      cbn [variaveis_categoricas] in Hkeep. split; [exact Hkeep|].
      intros H. inversion H as [? ? (f' & Hf' & Ht)|? ? Hrest]; subst.
      * rewrite Hf in Hf'. injection Hf' as <-. rewrite Ht in Hs. discriminate.
      * apply Hex. assumption.
Qed.

(** X5: when the input columns exist and one of them is of string type the
    function raises [TypeError], whatever the flags: the loop that should
    index the string columns iterates over the table itself and indexes the
    schema with a [Column] object.  No call with a string column returns. *)
Theorem string_input_column_raises (E : Engine) (df novo : DataFrame)
    (variaveis_entrada : list string) (variavel_saida : string)
    (tratar_outliers padronizar_dados : bool)
    (scalerModel : option MinMaxScalerModel) :
  prep_label E df variavel_saida = Ok novo ->
  Forall (fun c => In c (columns novo)) variaveis_entrada ->
  Exists (string_typed novo) variaveis_entrada ->
  func_modulo_prep_dados E df variaveis_entrada variavel_saida tratar_outliers
    padronizar_dados scalerModel = Err TypeError.
Proof.
  intros Hn Hall Hex.
  destruct (classify_present novo variaveis_entrada (mkLocals [] [] None) Hall)
    as (st & Hst & _ & Hcat).
  eapply string_column_raises; [exact Hn | exact Hst | exact (Hcat Hex)].
Qed.

Lemma rename_absent (out new : string) (df : DataFrame) :
  index_of out (columns df) = None -> withColumnRenamed out new df = df.
Proof.
  destruct df as [sch rws]. unfold withColumnRenamed, columns. cbn [schema rows].
  intros H. f_equal. induction sch as [|f sch IH]; cbn in *; [reflexivity|].
  unfold rename_field at 1. destruct (String.eqb (name f) out); [discriminate|].
  destruct (index_of out (map name sch)); cbn in H; [discriminate|].
  rewrite IH; reflexivity.
Qed.

Lemma no_column_named_index_of (c : string) (cols : list string) :
  no_column_named c cols -> index_of c cols = None.
Proof.
  induction 1 as [|x l Hx _ IH]; cbn; [reflexivity|].
  destruct (String.eqb x c) eqn:Heq.
  - apply String.eqb_eq in Heq. subst x. contradiction Hx. reflexivity.
  - rewrite IH. reflexivity.
Qed.

(** X6: when the table has no column of the name given for the output, in any
    letter case, and no column called [label], the function raises
    [KeyError]: the renaming does nothing and the schema has no [label]. *)
Theorem missing_output_raises (E : Engine) (df : DataFrame)
    (variaveis_entrada : list string) (variavel_saida : string)
    (tratar_outliers padronizar_dados : bool)
    (scalerModel : option MinMaxScalerModel) :
  no_column_named variavel_saida (columns df) ->
  ~ In "label" (columns df) ->
  func_modulo_prep_dados E df variaveis_entrada variavel_saida tratar_outliers
    padronizar_dados scalerModel = Err KeyError.
Proof.
  intros Hout Hlab. apply no_column_named_index_of in Hout.
  apply index_of_not_In in Hlab. unfold func_modulo_prep_dados, prep_label.
  rewrite (rename_absent _ _ _ Hout). cbn [schema_getitem].
  rewrite (find_name_none _ _ Hlab). reflexivity.
Qed.

(** X7: when the name of an input column is not a column of the prepared table
    (and the names before it are), the function raises [KeyError]. *)
Theorem missing_input_raises (E : Engine) (df novo : DataFrame)
    (antes depois : list string) (coluna variavel_saida : string)
    (tratar_outliers padronizar_dados : bool)
    (scalerModel : option MinMaxScalerModel) :
  prep_label E df variavel_saida = Ok novo ->
  Forall (fun c => In c (columns novo)) antes ->
  ~ In coluna (columns novo) ->
  func_modulo_prep_dados E df (antes ++ coluna :: depois) variavel_saida
    tratar_outliers padronizar_dados scalerModel = Err KeyError.
Proof.
  intros Hn Hall Hc. unfold func_modulo_prep_dados. rewrite Hn. cbn [res_bind].
  rewrite res_fold_app.
  destruct (classify_present novo antes (mkLocals [] [] None) Hall) as (st & -> & _).
  cbn [res_bind res_fold]. unfold classify_step at 1.
  rewrite (schema_getitem_not_In _ _ Hc). reflexivity.
Qed.

(** ** Data preparation: what the returned table holds *)


Lemma withColumn_rows_length (E : Engine) (c : string) (e : Column) (df t : DataFrame) :
  withColumn E c e df = Ok t -> List.length (rows t) = List.length (rows df).
Proof.
  unfold withColumn. intros H. bind_in H as ty Hty.
  destruct (existsb _ _); injection H as <-; cbn [rows]; apply length_map.
Qed.

Lemma prep_label_rows_length (E : Engine) (df novo : DataFrame) (out : string) :
  prep_label E df out = Ok novo -> List.length (rows novo) = List.length (rows df).
Proof.
  unfold prep_label. intros H. bind_in H as f Hf.
  destruct (negb _).
  - bind_in H as c Hc. apply withColumn_rows_length in H. exact H.
  - injection H as <-. reflexivity.
Qed.

Lemma Forall2_compose {A B C : Type} (P : A -> B -> Prop) (Q : B -> C -> Prop)
    (l1 : list A) (l2 : list B) (l3 : list C) :
  Forall2 P l1 l2 -> Forall2 Q l2 l3 ->
  Forall2 (fun a c => exists b, P a b /\ Q b c) l1 l3.
Proof.
  intros H. revert l3. induction H as [|a b l1 l2 Hab _ IH]; intros l3 H3.
  - inversion H3. constructor.
  - inversion H3 as [|? c ? l3' Hbc H3']; subst. constructor; eauto.
Qed.

Lemma Forall2_length_eq {A B : Type} (P : A -> B -> Prop) (l1 : list A) (l2 : list B) :
  Forall2 P l1 l2 -> List.length l1 = List.length l2.
Proof. induction 1; cbn; congruence. Qed.

(** X9: the function keeps every row, in its place: the returned table has as
    many rows as the input table, and the label of a row is the label cell
    of that row of the table with the prepared label. *)
Theorem rows_and_labels_preserved (E : Engine) (df : DataFrame)
    (variaveis_entrada : list string) (variavel_saida : string)
    (tratar_outliers padronizar_dados : bool)
    (scalerModel scalerModel' : option MinMaxScalerModel) (dados_finais : DataFrame) :
  wf_rows df ->
  func_modulo_prep_dados E df variaveis_entrada variavel_saida tratar_outliers
    padronizar_dados scalerModel = Ok (dados_finais, scalerModel') ->
  exists novo_df il,
    prep_label E df variavel_saida = Ok novo_df /\
    resolve novo_df "label" = Ok il /\
    List.length (rows dados_finais) = List.length (rows df) /\
    Forall2 (fun r r' => cell (column_index (columns dados_finais) "label") r' = cell il r)
            (rows novo_df) (rows dados_finais).
Proof.
  intros Hwf H.
  pose proof (prep_columns _ _ _ _ _ _ _ _ _ H) as Hcols.
  destruct (prep_success _ _ _ _ _ _ _ _ _ H) as (novo & dv & Hn & Hv & Hs).
  pose proof (vectorize_pairs _ _ _ Hv) as Hpairs.
  destruct (vectorize_inv _ _ _ Hv) as (idx & il & tl & _ & Hil & _ & _ & Hsch & Hrows).
  pose proof (prep_label_wf _ _ _ _ Hn Hwf) as Hwf'.
  pose proof (resolve_lt _ _ _ Hil) as Hlt.
  assert (Hdv : Forall2 (fun r r' : Row => cell 1 r' = cell il r) (rows novo) (rows dv)).
  { unfold wf_rows in Hwf'. clear Hpairs Hs Hv.
    induction Hrows as [|r r' l l' (v & _ & ->) _ IH]; constructor.
    - inversion Hwf' as [|? ? Hlen _]; subst.
      cbn [cell nth]. change (cell il (r ++ [VVec v]) = cell il r).
      apply cell_app_l. lia.
    - inversion Hwf'; subst. apply IH. assumption. }
  exists novo, il. split; [assumption|]. split; [assumption|].
  rewrite Hcols. destruct padronizar_dados.
  - destruct (standardize_true_inv _ _ _ _ _ Hsch Hpairs Hs)
      as (m & vs & _ & _ & _ & _ & Ht).
    split.
    + transitivity (List.length (rows dv));
        [symmetry; exact (Forall2_length_eq _ _ _ Ht)|].
      transitivity (List.length (rows novo));
        [symmetry; exact (Forall2_length_eq _ _ _ Hdv)|].
      exact (prep_label_rows_length _ _ _ _ Hn).
    + pose proof (Forall2_compose _ _ _ _ _ Hdv Ht) as Hc.
      eapply Forall2_impl; [exact Hc|].
      intros r r' (b & Hb & v & _ & ->). cbn. exact Hb.
  - unfold standardize in Hs. injection Hs as <- <-.
    split.
    + transitivity (List.length (rows novo));
        [symmetry; exact (Forall2_length_eq _ _ _ Hdv)|].
      exact (prep_label_rows_length _ _ _ _ Hn).
    + exact Hdv.
Qed.

(** X10: without standardization the function does not assign [scalerModel];
    when it was never assigned, scoring the new record raises [NameError]. *)
Theorem unstandardized_leaves_scaler (E : Engine) (L : MLlib) (df : DataFrame)
    (variaveis_entrada : list string) (variavel_saida : string)
    (tratar_outliers : bool) (scalerModel scalerModel' : option MinMaxScalerModel)
    (dados_finais novos_dados : DataFrame) (dados_columns : list string)
    (g : ml_globals L) :
  func_modulo_prep_dados E df variaveis_entrada variavel_saida tratar_outliers false
    scalerModel = Ok (dados_finais, scalerModel') ->
  novos_dados_features E dados_columns = Ok novos_dados ->
  scalerModel' = scalerModel /\
  (scalerModel = None ->
   score_novos_dados E L dados_columns scalerModel' g = Err NameError).
Proof.
  intros H Hnd.
  destruct (prep_inv _ _ _ _ _ _ _ _ _ H) as (novo & st & dfi & dv & _ & _ & _ & _ & Hs).
  unfold standardize in Hs. injection Hs as _ <-.
  split; [reflexivity|]. intros ->.
  unfold score_novos_dados. rewrite Hnd. reflexivity.
Qed.

(** ** The local [indexed] *)

Lemma outlier_step_inv (E : Engine) (df dfi : DataFrame) (d : gmap string (list R))
    (indexed o : option DataFrame) (col : string) :
  outlier_step E df (Some dfi) d indexed col = Ok o ->
  (o = indexed /\
   exists s, df_skewness E dfi col = Ok (Some s) /\ -1 <= s <= 1) \/
  (exists t e, withColumn E col e dfi = Ok t /\ o = Some t).
Proof.
  unfold outlier_step. cbn [read_local res_bind]. intros H.
  bind_in H as skew Hskew. bind_in H as pos Hpos.
  destruct skew as [s|]; [|discriminate]. cbn [py_gt] in Hpos.
  injection Hpos as <-.
  destruct (Rgt_dec s 1) as [Hgt|Hle].
  - bind_in H as e He. bind_in H as t Ht. injection H as <-. right. eauto.
  - bind_in H as neg Hneg. cbn [py_lt] in Hneg. injection Hneg as <-.
    destruct (Rlt_dec s (-1)) as [Hlt|Hge].
    + bind_in H as e He. bind_in H as t Ht. injection H as <-. right. eauto.
    + injection H as <-. left. split; [reflexivity|]. exists s. split; [exact Hskew|]. lra.
Qed.

(** X11: what the outlier block leaves in [indexed]: nothing when the skewness of
    every numeric column is between -1 and 1; otherwise the indexed table
    with one single column replaced, since every transformation starts again
    from [df_indexed] and not from the table transformed so far. *)
Theorem indexed_has_one_column_replaced (E : Engine) (df dfi : DataFrame)
    (st : prep_locals) (indexed : option DataFrame) :
  tratar_outliers_block E df st (Some dfi) = Ok indexed ->
  match indexed with
  | None =>
      forall col, In col (variaveis_numericas st) ->
        exists s, df_skewness E dfi col = Ok (Some s) /\ -1 <= s <= 1
  | Some t =>
      exists col e, In col (variaveis_numericas st) /\ withColumn E col e dfi = Ok t
  end.
Proof.
  unfold tratar_outliers_block. intros H. bind_in H as d Hd. clear Hd.
  assert (Hgen : forall l i0 o,
    res_fold (outlier_step E df (Some dfi) d) l i0 = Ok o ->
    match o with
    | None =>
        i0 = None /\
        forall col, In col l ->
          exists s, df_skewness E dfi col = Ok (Some s) /\ -1 <= s <= 1
    | Some t =>
        i0 = Some t \/ exists col e, In col l /\ withColumn E col e dfi = Ok t
    end).
  { induction l as [|c l IH]; intros i0 o Hf.
    - cbn in Hf. injection Hf as <-. destruct i0; [left; reflexivity|].
      split; [reflexivity|]. intros col [].
    - cbn [res_fold] in Hf. bind_in Hf as o1 Ho1.
      specialize (IH _ _ Hf).
      destruct (outlier_step_inv _ _ _ _ _ _ _ Ho1)
        as [[-> Hs]|(t1 & e & Ht1 & ->)].
      + destruct o as [t|].
        * destruct IH as [->|(col & e & Hin & Hw)]; [left; reflexivity|].
          right. exists col, e. split; [right; assumption | assumption].
        * destruct IH as [-> Hall]. split; [reflexivity|].
          intros col [<-|Hin]; [exact Hs | apply Hall; assumption].
      + destruct o as [t|].
        * right. destruct IH as [[= <-]|(col & e' & Hin & Hw)].
          -- exists c, e. split; [left; reflexivity | assumption].
          -- exists col, e'. split; [right; assumption | assumption].
        * destruct IH as [Hnone _]. discriminate. }
  specialize (Hgen _ _ _ H). destruct indexed as [t|].
  - destruct Hgen as [Hn|Hex]; [discriminate | exact Hex].
  - destruct Hgen as [_ Hall]. exact Hall.
Qed.

(** ** Data preparation: missing values and undefined skewness *)

Section NumericColumns.

Variable E : Engine.
Variables df novo : DataFrame.
Variable out : string.
Variable i_out : nat.
Variable t_out : DataType.

Hypothesis Hcols : columns novo = columns (withColumnRenamed out "label" df).
Hypothesis Hother :
  forall j f, nth_error (schema df) j = Some f ->
    name f <> out -> name f <> "label" -> nth_error (schema novo) j = Some f.
Hypothesis Hrows : rows novo = map (label_row E t_out (columns novo) i_out) (rows df).

Lemma column_in_novo (col : string) (i : nat) :
  input_column df out col i ->
  resolve novo col = Ok i /\
  resolve df col = Ok i /\
  (exists t, nth_error (schema novo) i = Some (mkField col t) /\ is_numeric t = true) /\
  (forall r, cell i (label_row E t_out (columns novo) i_out r) = cell i r) /\
  map (cell i) (rows novo) = map (cell i) (rows df).
Proof.
  intros (Hlab & Hout & t & Hn & Hc & Ht).
  assert (Hn' : nth_error (schema novo) i = Some (mkField col t))
    by (apply Hother; assumption).
  assert (Hcol' : nth_error (columns novo) i = Some col)
    by (unfold columns; rewrite nth_error_map, Hn'; reflexivity).
  assert (Hcol : nth_error (columns df) i = Some col)
    by (unfold columns; rewrite nth_error_map, Hn; reflexivity).
  assert (Hc' : count_name col (columns novo) = 1%nat).
  { rewrite Hcols, columns_renamed, count_name_renamed; assumption. }
  assert (Hcells : forall r, cell i (label_row E t_out (columns novo) i_out r) = cell i r).
  { intros r. unfold label_row. destruct (String.eqb _ _); [reflexivity|].
    apply replace_cells_other. rewrite Hcol'. congruence. }
  split; [apply resolve_unique; assumption|].
  split; [apply resolve_unique; assumption|].
  split; [eauto|]. split; [exact Hcells|].
  rewrite Hrows, map_map. apply map_ext. exact Hcells.
Qed.

Lemma classify_numeric (l : list string) (st0 : prep_locals) :
  Forall (fun c => exists j, input_column df out c j) l ->
  exists o,
    res_fold (classify_step novo) l st0
    = Ok (mkLocals (variaveis_numericas st0 ++ l) (variaveis_categoricas st0) o).
Proof.
  intros Hl. revert st0. induction Hl as [|col l [j Hcol] _ IH]; intros st0.
  - exists (df_indexed st0). rewrite app_nil_r. destruct st0. reflexivity.
  - destruct (column_in_novo col j Hcol) as (Hr & _ & (t & Hn & Ht) & _).
    cbn [res_fold]. unfold classify_step at 1. unfold schema_getitem.
    apply resolve_ok in Hr. destruct Hr as [Hidx _].
    rewrite (find_index_of _ _ _ Hidx), Hn. cbn [res_bind dataType].
    assert (String.eqb (type_name t) "StringType" = false) as ->
      by (destruct t; try discriminate; reflexivity).
    cbn [res_bind].
    destruct (IH (mkLocals (variaveis_numericas st0 ++ [col])
                           (variaveis_categoricas st0) (Some novo))) as [o Ho].
    exists o. rewrite Ho. cbn [variaveis_numericas variaveis_categoricas].
    rewrite <- app_assoc. reflexivity.
Qed.

Lemma quantile_fold_numeric (l : list string) (d0 : gmap string (list R)) :
  Forall (fun c => exists j, input_column df out c j) l ->
  exists d, res_fold (quantile_step E (Some novo)) l d0 = Ok d.
Proof.
  intros Hl. revert d0. induction Hl as [|col l [j Hcol] _ IH]; intros d0.
  - exists d0. reflexivity.
  - destruct (column_in_novo col j Hcol) as (Hr & _ & (t & Hn & Ht) & _).
    cbn [res_fold]. unfold quantile_step at 1. cbn [read_local res_bind].
    unfold df_approxQuantile. rewrite Hr. cbn [res_bind].
    rewrite (field_at_nth _ _ _ Hn). cbn [dataType]. rewrite Ht. cbn [res_bind].
    apply IH.
Qed.

Lemma skewness_in_novo (col : string) (i : nat) :
  input_column df out col i ->
  df_skewness E novo col = Ok (agg_skewness E (map (cell i) (rows df))).
Proof.
  intros Hcol.
  destruct (column_in_novo col i Hcol) as (Hr & _ & (t & Hn & Ht) & _ & Hmap).
  unfold df_skewness, df_getitem. rewrite Hr. cbn [res_bind].
  rewrite (index_of_columns_typeof _ _ _ _ Hr Hn). cbn [res_bind].
  rewrite Ht. cbn [orb].
  unfold column_index. apply resolve_ok in Hr. destruct Hr as [-> _].
  rewrite Hmap. reflexivity.
Qed.

Lemma assembler_inputs_numeric (l : list string) :
  Forall (fun c => exists j, input_column df out c j) l ->
  exists idx,
    res_map (assembler_input novo) l = Ok idx /\
    Forall2 (fun c j => input_column df out c j) l idx.
Proof.
  induction 1 as [|col l [j Hcol] _ (idx & Hidx & Hall)].
  - exists []. split; [reflexivity | constructor].
  - destruct (column_in_novo col j Hcol) as (Hr & _ & (t & Hn & Ht) & _).
    exists (j :: idx). cbn [res_map]. unfold assembler_input at 1.
    rewrite Hr. cbn [res_bind]. rewrite (field_at_nth _ _ _ Hn). cbn [dataType].
    assert (assemblable t = true) as -> by (destruct t; try discriminate; reflexivity).
    cbn [res_bind]. rewrite Hidx. cbn [res_bind].
    split; [reflexivity | constructor; assumption].
Qed.

End NumericColumns.

Lemma res_map_err_uniform {A B : Type} (f : A -> res B) (e : error) (l : list A) :
  Forall (fun a => (exists b, f a = Ok b) \/ f a = Err e) l ->
  Exists (fun a => f a = Err e) l ->
  res_map f l = Err e.
Proof.
  induction 1 as [|a l Ha _ IH]; intros Hex; [inversion Hex|].
  cbn [res_map]. destruct Ha as [[b Hb]|Ha].
  - rewrite Hb. cbn [res_bind].
    inversion Hex as [? ? Hfa|? ? Hrest]; subst; [congruence|].
    rewrite (IH Hrest). reflexivity.
  - rewrite Ha. reflexivity.
Qed.

Lemma to_double_cases (v : value) :
  (exists p, to_double v = Ok p) \/ to_double v = Err SparkException.
Proof. destruct v; cbn; eauto. Qed.

Lemma assemble_row_cases (idx : list nat) (r : Row) :
  (exists v, assemble_row idx r = Ok v) \/ assemble_row idx r = Err SparkException.
Proof.
  unfold assemble_row.
  destruct (res_map (fun i => to_double (cell i r)) idx) as [parts|e] eqn:H.
  - left. cbn. eauto.
  - right. cbn. f_equal.
    revert e H. induction idx as [|i idx IH]; intros e H; [discriminate|].
    cbn [res_map] in H. destruct (to_double_cases (cell i r)) as [[p Hp]|Hp].
    + rewrite Hp in H. cbn [res_bind] in H.
      destruct (res_map (fun i => to_double (cell i r)) idx) as [ps|e'] eqn:H';
        [discriminate|].
      cbn in H. injection H as <-. apply (IH e' eq_refl).
    + rewrite Hp in H. cbn in H. congruence.
Qed.

Lemma assemble_row_null (idx : list nat) (r : Row) (i : nat) :
  In i idx -> cell i r = VNull -> assemble_row idx r = Err SparkException.
Proof.
  intros Hin Hnull. unfold assemble_row.
  rewrite (res_map_err_uniform (fun i => to_double (cell i r)) SparkException idx).
  - reflexivity.
  - apply List.Forall_forall. intros j _. apply to_double_cases.
  - apply List.Exists_exists. exists i. split; [assumption|]. rewrite Hnull. reflexivity.
Qed.

Lemma input_position (df : DataFrame) (out : string) (l : list string)
    (idx : list nat) (col : string) (i : nat) :
  Forall2 (fun c j => input_column df out c j) l idx ->
  In col l -> input_column df out col i -> In i idx.
Proof.
  intros Hpos Hin Hcol.
  induction Hpos as [|c j l l' Hcj _ IH]; [destruct Hin|].
  destruct Hin as [->|Hin]; [|right; apply IH; assumption].
  left. destruct Hcol as (_ & _ & t1 & Hn1 & Hc1 & _).
  destruct Hcj as (_ & _ & t2 & Hn2 & _ & _).
  assert (Hcol1 : nth_error (columns df) i = Some col)
    by (unfold columns; rewrite nth_error_map, Hn1; reflexivity).
  assert (Hcol2 : nth_error (columns df) j = Some col)
    by (unfold columns; rewrite nth_error_map, Hn2; reflexivity).
  pose proof (unique_name_position _ _ _ Hc1 Hcol1) as H1.
  pose proof (unique_name_position _ _ _ Hc1 Hcol2) as H2. congruence.
Qed.

(** X12: with the treatment of outliers, a numeric first input column on which
    the engine returns a NULL skewness (as for a column without rows) makes
    the function raise [TypeError]: [None] is compared with 1. *)
Theorem null_skewness_raises (E : Engine) (df : DataFrame) (variavel_saida : string)
    (i_out : nat) (col : string) (i : nat) (resto : list string)
    (padronizar_dados : bool) (scalerModel : option MinMaxScalerModel) :
  output_column df variavel_saida i_out ->
  input_column df variavel_saida col i ->
  Forall (fun c => exists j, input_column df variavel_saida c j) resto ->
  agg_skewness E (map (cell i) (rows df)) = None ->
  func_modulo_prep_dados E df (col :: resto) variavel_saida true padronizar_dados
    scalerModel = Err TypeError.
Proof.
  intros [(t & Hi & Ht) Hlabel] Hcol Hrest Hskew.
  destruct (prep_label_total E df variavel_saida i_out t Hi Hlabel Ht)
    as (novo & Hnovo & Hcols & Hlab & Hother & Hrows).
  assert (Hall : Forall (fun c => exists j, input_column df variavel_saida c j)
                        (col :: resto)) by (constructor; eauto).
  destruct (classify_numeric E df novo variavel_saida i_out t Hcols Hother Hrows
              (col :: resto) (mkLocals [] [] None) Hall) as [o Hst].
  cbn [variaveis_numericas variaveis_categoricas app] in Hst.
  unfold func_modulo_prep_dados. rewrite Hnovo. cbn [res_bind]. rewrite Hst.
  cbn [res_bind]. unfold index_categoricals.
  cbn [variaveis_categoricas List.length Nat.eqb negb res_bind].
  unfold tratar_outliers_block. cbn [variaveis_numericas].
  destruct (quantile_fold_numeric E df novo variavel_saida i_out t Hcols Hother Hrows
              (col :: resto) ∅ Hall) as [d ->].
  cbn [res_bind res_fold]. unfold outlier_step at 1. cbn [read_local res_bind].
  rewrite (skewness_in_novo E df novo variavel_saida i_out t Hcols Hother Hrows col i Hcol).
  rewrite Hskew. reflexivity.
Qed.

(** X13: with standardization and without the treatment of outliers, a missing
    value in a numeric input column makes the function raise: the row is
    not removed, the assembler refuses it. *)
Theorem missing_value_raises (E : Engine) (df : DataFrame)
    (variaveis_entrada : list string) (variavel_saida : string)
    (i_out : nat) (col : string) (i : nat) (r : Row)
    (scalerModel : option MinMaxScalerModel) :
  output_column df variavel_saida i_out ->
  existsb (String.eqb "features") (columns df) = false ->
  Forall (fun c => exists j, input_column df variavel_saida c j) variaveis_entrada ->
  In col variaveis_entrada ->
  input_column df variavel_saida col i ->
  In r (rows df) ->
  cell i r = VNull ->
  func_modulo_prep_dados E df variaveis_entrada variavel_saida false true scalerModel
  = Err SparkException.
Proof.
  intros [(t & Hi & Ht) Hlabel] Hfeat Hall Hin Hcol Hr Hnull.
  destruct (prep_label_total E df variavel_saida i_out t Hi Hlabel Ht)
    as (novo & Hnovo & Hcols & Hlab & Hother & Hrows).
  destruct (classify_numeric E df novo variavel_saida i_out t Hcols Hother Hrows
              variaveis_entrada (mkLocals [] [] None) Hall) as [o Hst].
  cbn [variaveis_numericas variaveis_categoricas app] in Hst.
  destruct (assembler_inputs_numeric E df novo variavel_saida i_out t Hcols Hother Hrows
              variaveis_entrada Hall) as (idx & Hidx & Hpos).
  assert (Hex : existsb (String.eqb "features") (columns novo) = false).
  { rewrite Hcols, columns_renamed. apply existsb_renamed; [discriminate | assumption]. }
  pose proof (input_position df variavel_saida _ _ col i Hpos Hin Hcol) as Hi_idx.
  unfold func_modulo_prep_dados. rewrite Hnovo. cbn [res_bind]. rewrite Hst.
  cbn [res_bind]. unfold index_categoricals.
  cbn [variaveis_categoricas List.length Nat.eqb negb res_bind].
  unfold vectorize, VectorAssembler_transform.
  cbn [read_local res_bind variaveis_numericas variaveis_categoricas].
  rewrite app_nil_r, Hidx. cbn [res_bind]. rewrite Hex.
  rewrite (res_map_err_uniform
             (fun r0 : Row => let* v := assemble_row idx r0 in Ok (r0 ++ [VVec v]))
             SparkException (rows novo)).
  - reflexivity.
  - apply List.Forall_forall. intros r0 _.
    destruct (assemble_row_cases idx r0) as [[v Hv]|Hv]; rewrite Hv; cbn; eauto.
  - apply List.Exists_exists.
    exists (label_row E t (columns novo) i_out r). split.
    + rewrite Hrows. apply in_map. assumption.
    + rewrite (assemble_row_null idx _ i Hi_idx); [reflexivity|].
      destruct (column_in_novo E df novo variavel_saida i_out t Hcols Hother Hrows
                  col i Hcol) as (_ & _ & _ & Hcells & _).
      rewrite Hcells. assumption.
Qed.

(** ** Scoring the new record *)

Lemma columns_createDataFrame_8 (r : Row) (names : list string) :
  List.length names = 8%nat -> List.length r = 8%nat ->
  columns (createDataFrame [r] names) = names.
Proof.
  intros Hn Hr.
  do 9 (destruct names as [|? names]; try discriminate).
  do 9 (destruct r as [|? r]; try discriminate).
  reflexivity.
Qed.

(** X14: when none of the first eight names of the header of the data set is
    [age], in any letter case, preparing the new record raises: the column
    of [log("age")] cannot be resolved. *)
Theorem new_record_needs_age (E : Engine) (dados_columns : list string) :
  (8 <= List.length dados_columns)%nat ->
  no_column_named "age" (firstn 8 dados_columns) ->
  novos_dados_features E dados_columns = Err AnalysisException.
Proof.
  intros Hlen Hage. apply no_column_named_index_of in Hage. unfold novos_dados_features, withColumn.
  assert (Hcols : columns (createDataFrame values (firstn 8 dados_columns))
                  = firstn 8 dados_columns).
  { apply columns_createDataFrame_8; [|reflexivity].
    rewrite length_firstn. lia. }
  cbn [typeof]. unfold resolve. rewrite Hcols, Hage. reflexivity.
Qed.

(** X15: when the header of the data set starts with the eight attribute names,
    the new record is rescaled with the minima and maxima stored in
    [scalerModel], whatever they are (nothing is fitted again), and the
    rescaled vector is what [GBT_BestModel] scores. *)
Theorem new_record_uses_stored_scaler (E : Engine) (L : MLlib)
    (dados_columns : list string) (m : MinMaxScalerModel) (gbt : Model L)
    (g : ml_globals L) :
  firstn 8 dados_columns = lista_atributos ->
  List.length (originalMin m) = 8%nat ->
  GBT_BestModel g = Some gbt ->
  score_novos_dados E L dados_columns (Some m) g
  = Ok (predict L gbt
          (mkDF [mkField "features" VectorUDT]
                [[VVec (rescale_vector (originalMin m) (originalMax m)
                          [540; 0; 0; 162; 2.5; 1040; 676; ln 28 + 1])]])).
Proof.
  intros Hcols Hlen Hgbt. unfold score_novos_dados, novos_dados_features.
  rewrite Hcols. cbn.
  destruct (Rlt_dec 0 28) as [_|H]; [|exfalso; lra].
  cbn. unfold MinMaxScalerModel_transform. cbn. unfold scale_row. cbn.
  rewrite Hlen. cbn. rewrite Hgbt. reflexivity.
Qed.

(** ** The further properties on the samples *)

Lemma other_branches_row_witness :
  GBTRegressor <> LinearRegression /\
  (exists g',
     func_modulo_ml sample_engine sample_mllib right_tailed left_tailed
       (mkGlobals (Some GBTRegressor) None None None None None) GBTRegressor
     = Ok (mkDF schema_resultado
                [summary_row sample_mllib right_tailed left_tailed GBTRegressor],
           g')) /\
  func_modulo_ml sample_engine sample_mllib right_tailed left_tailed
    (mkGlobals None None None None None None) GBTRegressor
  = Err NameError.
Proof.
  split; [discriminate|].
  apply (other_branches_row sample_engine sample_mllib right_tailed left_tailed
           GBTRegressor None None None None None).
  discriminate.
Defined.

Lemma training_with_linear_raises_witness :
  run_training sample_engine sample_mllib right_tailed left_tailed
    [DecisionTreeRegressor; LinearRegression; GBTRegressor]
    (mkGlobals None None None None None None)
  = Err AnalysisException.
Proof.
  apply (training_with_linear_raises sample_engine sample_mllib right_tailed left_tailed).
  right. left. reflexivity.
Defined.

Lemma training_without_linear_witness :
  exists g',
    run_training sample_engine sample_mllib right_tailed left_tailed
      [DecisionTreeRegressor; GBTRegressor] (mkGlobals None None None None None None)
    = Ok (mkDF schema_resultado
               [summary_row sample_mllib right_tailed left_tailed
                  DecisionTreeRegressor;
                summary_row sample_mllib right_tailed left_tailed GBTRegressor], g').
Proof.
  apply (training_without_linear sample_engine sample_mllib right_tailed left_tailed
           [DecisionTreeRegressor; GBTRegressor]).
  intros [H|[H|[]]]; discriminate.
Defined.

Lemma string_input_column_raises_witness :
  func_modulo_prep_dados sample_engine string_x ["x"] "y" false false None
  = Err TypeError.
Proof.
  apply (string_input_column_raises sample_engine string_x
           (mkDF [mkField "x" StringType; mkField "label" FloatType]
                 [[VStr "a"; VNum 10]; [VStr "b"; VNum 20]])).
  - reflexivity.
  - constructor; [left; reflexivity | constructor].
  - left. eexists. split; reflexivity.
Defined.

Ltac other_names :=
  repeat (apply List.Forall_cons; [intros H; vm_compute in H; discriminate H|]);
  apply List.Forall_nil.

Lemma missing_output_raises_witness :
  func_modulo_prep_dados sample_engine right_tailed ["x"] "z" true true None
  = Err KeyError.
Proof.
  apply (missing_output_raises sample_engine right_tailed ["x"] "z" true true None).
  - other_names.
  - intros [H|[H|[]]]; discriminate.
Defined.

Lemma missing_input_raises_witness :
  func_modulo_prep_dados sample_engine right_tailed (["x"] ++ "w" :: ["x"]) "y"
    true true None
  = Err KeyError.
Proof.
  apply (missing_input_raises sample_engine right_tailed
           (mkDF [mkField "x" DoubleType; mkField "label" FloatType]
                 [[VNum 0; VNum 10]; [VNum 0; VNum 20]; [VNum 0; VNum 30];
                  [VNum 1; VNum 40]])).
  - reflexivity.
  - constructor; [left; reflexivity | constructor].
  - intros [H|[H|[]]]; discriminate.
Defined.

Lemma right_tailed_wf : wf_rows right_tailed.
Proof. repeat constructor. Qed.

Lemma right_tailed_run :
  func_modulo_prep_dados sample_engine right_tailed ["x"] "y" true false None
  = Ok (prepared [(0, 10); (0, 20); (0, 30); (1, 40)], None).
Proof. apply sample_run; [exact right_tailed_ready | reflexivity | reflexivity]. Qed.


Lemma rows_and_labels_preserved_witness :
  let t := prepared [(0, 10); (0, 20); (0, 30); (1, 40)] in
  exists novo_df il,
    prep_label sample_engine right_tailed "y" = Ok novo_df /\
    resolve novo_df "label" = Ok il /\
    List.length (rows t) = List.length (rows right_tailed) /\
    Forall2 (fun r r' => cell (column_index (columns t) "label") r' = cell il r)
            (rows novo_df) (rows t).
Proof.
  exact (rows_and_labels_preserved sample_engine right_tailed ["x"] "y" true false
           None None _ right_tailed_wf right_tailed_run).
Defined.

Lemma novos_dados_amostra :
  novos_dados_features sample_engine (columns dados_amostra)
  = Ok (mkDF [mkField "features" VectorUDT]
             [[VVec [540; 0; 0; 162; 2.5; 1040; 676; ln 28 + 1]]]).
Proof.
  unfold novos_dados_features. cbn.
  destruct (Rlt_dec 0 28) as [_|H]; [|exfalso; lra]. reflexivity.
Qed.

Lemma unstandardized_leaves_scaler_witness :
  score_novos_dados sample_engine sample_mllib (columns dados_amostra) None
    (mkGlobals (L := sample_mllib) None None None None (Some tt) None)
  = Err NameError.
Proof.
  exact (proj2 (unstandardized_leaves_scaler sample_engine sample_mllib right_tailed
                  ["x"] "y" true None None _ _ (columns dados_amostra)
                  (mkGlobals (L := sample_mllib) None None None None (Some tt) None)
                  right_tailed_run novos_dados_amostra) eq_refl).
Defined.

Lemma right_tailed_block :
  exists indexed,
    tratar_outliers_block sample_engine right_tailed (mkLocals ["x"] [] None)
      (Some (mkDF [mkField "x" DoubleType; mkField "label" FloatType]
                  [[VNum 0; VNum 10]; [VNum 0; VNum 20]; [VNum 0; VNum 30];
                   [VNum 1; VNum 40]]))
    = Ok indexed.
Proof.
  apply (tratar_outliers_total sample_engine right_tailed _ "y" 1 DoubleType).
  - reflexivity.
  - intros [|[|j]] f; cbn; intros [= <-]; cbn; congruence || (intros; reflexivity).
  - reflexivity.
  - destruct right_tailed_ready as [_ _ _ Hins _ _]. exact Hins.
Qed.

Lemma indexed_has_one_column_replaced_witness :
  let dfi := mkDF [mkField "x" DoubleType; mkField "label" FloatType]
                  [[VNum 0; VNum 10]; [VNum 0; VNum 20]; [VNum 0; VNum 30];
                   [VNum 1; VNum 40]] in
  exists indexed,
    tratar_outliers_block sample_engine right_tailed (mkLocals ["x"] [] None) (Some dfi)
      = Ok indexed /\
    match indexed with
    | None =>
        forall col, In col ["x"] ->
          exists s, df_skewness sample_engine dfi col = Ok (Some s) /\ -1 <= s <= 1
    | Some t =>
        exists col e, In col ["x"] /\ withColumn sample_engine col e dfi = Ok t
    end.
Proof.
  intros dfi. destruct right_tailed_block as [indexed H].
  exists indexed. split; [exact H|].
  exact (indexed_has_one_column_replaced sample_engine right_tailed dfi
           (mkLocals ["x"] [] None) indexed H).
Defined.

Lemma moment_skewness_constant : moment_skewness [5; 5] = None.
Proof.
  unfold moment_skewness, Rsum. cbn [List.length map fold_right INR].
  match goal with |- context [Req_dec_T ?m 0] =>
    destruct (Req_dec_T m 0) as [_|Hne]; [reflexivity|] end.
  exfalso. apply Hne. lra.
Qed.

Ltac sample_input_column :=
  split; [discriminate|]; split; [discriminate|];
  exists DoubleType; split; [reflexivity|]; split; reflexivity.

Ltac sample_output_column :=
  split; [exists DoubleType; split; [reflexivity | discriminate] | reflexivity].

Lemma null_skewness_raises_witness :
  func_modulo_prep_dados sample_engine constant_x ["x"] "y" true false None
  = Err TypeError.
Proof.
  apply (null_skewness_raises sample_engine constant_x "y" 1 "x" 0 [] false None).
  - sample_output_column.
  - sample_input_column.
  - constructor.
  - exact moment_skewness_constant.
Defined.

Lemma missing_value_raises_witness :
  func_modulo_prep_dados sample_engine missing_x ["x"] "y" false true None
  = Err SparkException.
Proof.
  apply (missing_value_raises sample_engine missing_x ["x"] "y" 1 "x" 0
           [VNull; VNum 20] None).
  - sample_output_column.
  - reflexivity.
  - constructor; [exists 0%nat; sample_input_column | constructor].
  - left. reflexivity.
  - sample_input_column.
  - right. left. reflexivity.
  - reflexivity.
Defined.

Lemma new_record_needs_age_witness :
  novos_dados_features sample_engine
    ["cement"; "slag"; "flyash"; "water"; "superplasticizer"; "coarseaggregate";
     "fineaggregate"; "days"; "csMPa"]
  = Err AnalysisException.
Proof.
  apply new_record_needs_age; [cbn; lia | cbn [firstn]; other_names].
Defined.

Lemma new_record_uses_stored_scaler_witness :
  let m := mkScaler [0; 0; 0; 0; 0; 0; 0; 0]
                    [1000; 1000; 1000; 1000; 1000; 1000; 1000; 1000] in
  score_novos_dados sample_engine sample_mllib (columns dados_amostra) (Some m)
    (mkGlobals (L := sample_mllib) None None None None (Some tt) None)
  = Ok (predict sample_mllib tt
          (mkDF [mkField "features" VectorUDT]
                [[VVec (rescale_vector (originalMin m) (originalMax m)
                          [540; 0; 0; 162; 2.5; 1040; 676; ln 28 + 1])]])).
Proof.
  intros m.
  apply (new_record_uses_stored_scaler sample_engine sample_mllib
           (columns dados_amostra) m tt); reflexivity.
Defined.
